(** * Server-Maker: the process supervisor of [server_runner.py] and the
      readiness projection of [app.py]

    The development embeds the supervisor (process handle, bounded log
    buffer, output pump, tunnel-status parser, RAM record, delete) as
    executable Rocq definitions and proves the properties of the
    specification against them.

    Text.  A Python [str] is modelled as a list of characters, a character
    being a code point below 256 (Rocq's [ascii], read as Latin-1).  On that
    range [str.lower], [str.strip], [str.splitlines], [int] and the [re]
    module behave as written below. *)

From Stdlib Require Import List Bool Arith ZArith Lia.
From Stdlib Require Import Ascii String.
From Stdlib Require Import DecimalString DecimalPos.
Import ListNotations.

(** ** Python text primitives *)

Module PyStr.

Definition text := list ascii.

(** A string literal of the source. *)
Definition lit (s : string) : text := list_ascii_of_string s.

Definition code (c : ascii) : N := N_of_ascii c.

Definition in_range (lo hi : N) (c : ascii) : bool :=
  (N.leb lo (code c) && N.leb (code c) hi)%bool.

(** [str.lower()] on one character: A-Z, and the Latin-1 capitals
    U+00C0..U+00DE without the multiplication sign U+00D7. *)
Definition lower_char (c : ascii) : ascii :=
  if in_range 65 90 c then ascii_of_N (code c + 32)
  else if in_range 192 222 c && negb (N.eqb (code c) 215)
       then ascii_of_N (code c + 32)
       else c.

Definition lower (s : text) : text := map lower_char s.

(** [str.isspace()] on one character: TAB..CR, FS..US, space, NEL, NBSP. *)
Definition isspace (c : ascii) : bool :=
  in_range 9 13 c || in_range 28 31 c || N.eqb (code c) 32
  || N.eqb (code c) 133 || N.eqb (code c) 160.

Fixpoint lstrip (s : text) : text :=
  match s with
  | c :: s' => if isspace c then lstrip s' else s
  | [] => []
  end.

Definition rstrip (s : text) : text := rev (lstrip (rev s)).

(** [str.strip()]: whitespace removed at both ends. *)
Definition strip (s : text) : text := rstrip (lstrip s).

(** [sub in s] for strings. *)
Fixpoint startswith (sub s : text) : bool :=
  match sub, s with
  | [], _ => true
  | a :: sub', b :: s' => Ascii.eqb a b && startswith sub' s'
  | _ :: _, [] => false
  end.

Fixpoint contains (sub s : text) : bool :=
  startswith sub s
  || match s with
     | [] => false
     | _ :: s' => contains sub s'
     end.

(** [sep.join(parts)]. *)
Fixpoint join (sep : text) (parts : list text) : text :=
  match parts with
  | [] => []
  | [p] => p
  | p :: rest => p ++ sep ++ join sep rest
  end.

(** Line boundaries of [str.splitlines()]: LF, VT, FF, CR, FS, GS, RS,
    NEL (and CR LF as one boundary). *)
Definition is_linebreak (c : ascii) : bool :=
  in_range 10 13 c || in_range 28 30 c || N.eqb (code c) 133.

Definition CR : ascii := ascii_of_N 13.
Definition LF : ascii := ascii_of_N 10.

(** [cur] holds the characters of the line being read, newest first.  A
    last line without a boundary is produced only when it is not empty. *)
Fixpoint splitlines_from (cur : text) (s : text) : list text :=
  match s with
  | [] => match cur with [] => [] | _ :: _ => [rev cur] end
  | c :: s' =>
      if is_linebreak c then
        rev cur ::
            match s' with
            | d :: s'' =>
                if Ascii.eqb c CR && Ascii.eqb d LF
                then splitlines_from [] s''
                else splitlines_from [] s'
            | [] => splitlines_from [] s'
            end
      else splitlines_from (c :: cur) s'
  end.

Definition splitlines (s : text) : list text := splitlines_from [] s.

(** [str(n)] for an integer. *)
Definition str_of_int (n : Z) : text :=
  lit (NilZero.string_of_int (Z.to_int n)).

(** [int(s)] on a string: surrounding whitespace is ignored, one sign is
    allowed, then decimal digits, single underscores allowed between
    digits.  [None] stands for [ValueError].  [max_digits] is the
    interpreter's limit on the number of digits ([0]: no limit). *)
Definition isdigit (c : ascii) : bool := in_range 48 57 c.

Definition digit_val (c : ascii) : Z := Z.of_N (code c) - 48.

Definition underscore : ascii := ascii_of_N 95.

(** Digits after the first one; [after_us] tells that the previous
    character was an underscore.  Returns the value and the digit count. *)
Fixpoint int_digits (acc : Z) (n : nat) (after_us : bool) (s : text)
  : option (Z * nat) :=
  match s with
  | [] => if after_us then None else Some (acc, n)
  | c :: s' =>
      if isdigit c then int_digits (10 * acc + digit_val c) (S n) false s'
      else if Ascii.eqb c underscore && negb after_us
           then int_digits acc n true s'
           else None
  end.

Definition int_unsigned (max_digits : nat) (s : text) : option Z :=
  match s with
  | c :: s' =>
      if isdigit c then
        match int_digits (digit_val c) 1 false s' with
        | Some (v, n) =>
            if Nat.eqb max_digits 0 || Nat.leb n max_digits
            then Some v else None
        | None => None
        end
      else None
  | [] => None
  end.

Definition int_of_str (max_digits : nat) (s : text) : option Z :=
  match strip s with
  | c :: s' =>
      if Ascii.eqb c "-" then option_map Z.opp (int_unsigned max_digits s')
      else if Ascii.eqb c "+" then int_unsigned max_digits s'
           else int_unsigned max_digits (c :: s')
  | [] => None
  end.

End PyStr.

Import PyStr.

(** ** The two patterns of [get_playit_status]

    [re.search] with backtracking, as a list-of-successes parser: a parser
    maps the input to every way of matching a prefix of it, the way the
    backtracking engine tries first coming first.  Each success carries a
    result and the unread rest. *)

Module Regex.

Definition parser (A : Type) := text -> list (A * text).

Definition p_bind {A B} (p : parser A) (f : A -> parser B) : parser B :=
  fun s => flat_map (fun ar => f (fst ar) (snd ar)) (p s).

Definition p_ret {A} (a : A) : parser A := fun s => [(a, s)].

(** [p] then [q]; the result is the text matched by both. *)
Definition p_seq (p q : parser text) : parser text :=
  p_bind p (fun m1 => p_bind q (fun m2 => p_ret (m1 ++ m2))).

(** One character, compared without case ([re.IGNORECASE]). *)
Definition p_char_ci (a : ascii) : parser text :=
  fun s =>
    match s with
    | c :: s' =>
        if Ascii.eqb (lower_char c) (lower_char a) then [([c], s')] else []
    | [] => []
    end.

Fixpoint p_lit_ci (l : text) : parser text :=
  match l with
  | [] => p_ret []
  | a :: l' => p_seq (p_char_ci a) (p_lit_ci l')
  end.

(** [p?], greedy: with [p] first, without it second. *)
Definition p_opt (p : parser text) : parser text :=
  fun s => p s ++ [([], s)].

(** [[class]+], greedy: the longest run first, the one-character run
    last. *)
Fixpoint p_plus (cls : ascii -> bool) (s : text) : list (text * text) :=
  match s with
  | c :: s' =>
      if cls c
      then map (fun mr => (c :: fst mr, snd mr)) (p_plus cls s') ++ [([c], s')]
      else []
  | [] => []
  end.

(** [re.search]: the first success at the leftmost start position that
    has one. *)
Fixpoint search {A} (p : parser A) (s : text) : option A :=
  match p s with
  | (a, _) :: _ => Some a
  | [] =>
      match s with
      | [] => None
      | _ :: s' => search p s'
      end
  end.

Definition isalnum (c : ascii) : bool :=
  in_range 65 90 c || in_range 97 122 c || in_range 48 57 c.

(** The class [[A-Za-z0-9-]]; it is closed under case, so IGNORECASE
    adds nothing to it. *)
Definition in_label (c : ascii) : bool :=
  isalnum c || Ascii.eqb c "-".

(** [https?://] *)
Definition re_scheme : parser text :=
  p_seq (p_lit_ci (lit "http"))
        (p_seq (p_opt (p_char_ci "s")) (p_lit_ci (lit "://"))).

(** [[A-Za-z0-9-]+\.joinmc\.link] *)
Definition re_domain : parser text :=
  p_seq (p_plus in_label) (p_lit_ci (lit ".joinmc.link")).

(** [(?:https?://)?([A-Za-z0-9-]+\.joinmc\.link)]; the result is
    group 1. *)
Definition re_joinmc : parser text :=
  p_bind (p_opt re_scheme) (fun _ => re_domain).

(** [https://playit\.gg/mc/[A-Za-z0-9]+]; the result is group 0. *)
Definition re_claim : parser text :=
  p_seq (p_lit_ci (lit "https://playit.gg/mc/")) (p_plus isalnum).

End Regex.

Import Regex.

(** ** [server_runner.py] *)

Module Runner.

(** *** Exceptions and logging *)

Inductive exn : Type :=
| TimeoutExpired        (* subprocess.TimeoutExpired *)
| BrokenPipeError
| PermissionError
| FileNotFoundError
| OSError
| ValueError
| UnicodeDecodeError
| AttributeError
| KeyboardInterrupt.    (* a BaseException that is not an Exception *)

Definition isinstance_Exception (e : exn) : bool :=
  match e with KeyboardInterrupt => false | _ => true end.

Definition isinstance_OSError (e : exn) : bool :=
  match e with
  | BrokenPipeError | PermissionError | FileNotFoundError | OSError => true
  | _ => false
  end.

Definition isinstance_ValueError (e : exn) : bool :=
  match e with ValueError | UnicodeDecodeError => true | _ => false end.

Definition isinstance_TimeoutExpired (e : exn) : bool :=
  match e with TimeoutExpired => true | _ => false end.

Inductive level : Type := INFO | WARNING | ERROR.

(** A log record: the level and the message as the source writes it
    (interpolated fields are left as in the f-string). *)
Definition logrec : Type := (level * string)%type.

(** *** The child process

    A [Popen] object together with what the operating system will answer
    to it.  [poll_result] is what [poll()] returns ([None]: the child has
    not exited); the [*_raises] fields and [wait_script] are the outcomes
    of the calls the supervisor makes on the object: the next
    [stdin.write], the next [stdin.flush], the successive [wait]s (an
    exception, or the exit of the child) and the next [kill].  The exit
    of the child is observed in [wait]; between two calls of one
    operation [poll()] gives the same answer. *)
Record Popen : Type := mkPopen {
  args : list text;
  poll_result : option Z;
  stdin_data : list text;
  write_raises : option exn;
  flush_raises : option exn;
  wait_script : list (option exn);
  kill_raises : option exn
}.

Definition MAX_LOG_LINES : nat := 300.

(** *** The supervisor's world: the module globals [server_process] and
    [server_output], the files the supervisor looks at, and the answers
    of the operating system to [shutil.rmtree] and [subprocess.Popen]. *)
Record world : Type := mkWorld {
  server_process : option Popen;
  server_output : list text;
  isdir_SERVER_DIR : bool;                  (* os.path.isdir(SERVER_DIR) *)
  ram_txt : option (exn + text);            (* ram.txt: absent, unreadable, content *)
  rmtree_raises : option exn;
  popen_raises : option exn;
  child : Popen;                            (* the process Popen would start *)
  int_max_str_digits : nat;
  logged : list logrec                      (* oldest first *)
}.

Definition set_server_process (p : option Popen) (w : world) : world :=
  mkWorld p (server_output w) (isdir_SERVER_DIR w) (ram_txt w)
          (rmtree_raises w) (popen_raises w) (child w)
          (int_max_str_digits w) (logged w).

Definition set_server_output (b : list text) (w : world) : world :=
  mkWorld (server_process w) b (isdir_SERVER_DIR w) (ram_txt w)
          (rmtree_raises w) (popen_raises w) (child w)
          (int_max_str_digits w) (logged w).

Definition add_log (r : logrec) (w : world) : world :=
  mkWorld (server_process w) (server_output w) (isdir_SERVER_DIR w)
          (ram_txt w) (rmtree_raises w) (popen_raises w) (child w)
          (int_max_str_digits w) (logged w ++ [r]).

(** The directory tree is gone: neither the directory nor [ram.txt]. *)
Definition remove_tree (w : world) : world :=
  mkWorld (server_process w) (server_output w) false None
          (rmtree_raises w) (popen_raises w) (child w)
          (int_max_str_digits w) (logged w).

(** *** A state-and-exception monad for the supervisor's operations *)

Inductive res (A : Type) : Type :=
| Ret (a : A)
| Raise (e : exn).
Arguments Ret {A} a.
Arguments Raise {A} e.

Definition M (A : Type) : Type := world -> res A * world.

Definition ret {A} (a : A) : M A := fun w => (Ret a, w).

Definition raise {A} (e : exn) : M A := fun w => (Raise e, w).

Definition bind {A B} (m : M A) (f : A -> M B) : M B :=
  fun w =>
    match m w with
    | (Ret a, w') => f a w'
    | (Raise e, w') => (Raise e, w')
    end.

Definition gets {A} (f : world -> A) : M A := fun w => (Ret (f w), w).

Definition modify (f : world -> world) : M unit := fun w => (Ret tt, f w).

(** [try: body except C as e: handler e] *)
Definition try_except {A} (body : M A) (C : exn -> bool)
           (handler : exn -> M A) : M A :=
  fun w =>
    match body w with
    | (Ret a, w') => (Ret a, w')
    | (Raise e, w') => if C e then handler e w' else (Raise e, w')
    end.

(** [try: body finally: fin] *)
Definition try_finally {A} (body : M A) (fin : M unit) : M A :=
  fun w =>
    match body w with
    | (r, w') =>
        match fin w' with
        | (Ret _, w'') => (r, w'')
        | (Raise e, w'') => (Raise e, w'')
        end
    end.

Declare Scope py_scope.
Delimit Scope py_scope with py.
Notation "x <- m ;; k" := (bind m (fun x => k))
  (at level 61, m at next level, right associativity) : py_scope.
Notation "m ;; k" := (bind m (fun _ => k))
  (at level 61, right associativity) : py_scope.
Local Open Scope py_scope.

Definition log (l : level) (msg : string) : M unit :=
  modify (add_log (l, msg)).

Definition from_raises (o : option exn) : M unit :=
  match o with
  | Some e => raise e
  | None => ret tt
  end.

(** *** Calls on [server_process]

    Each reads the global; on [None] the attribute access raises
    [AttributeError]. *)
Definition with_process {A} (f : Popen -> M A) : M A :=
  p <- gets server_process ;;
  match p with
  | Some pr => f pr
  | None => raise AttributeError
  end.

Definition update_process (pr : Popen) : M unit :=
  modify (set_server_process (Some pr)).

(** [server_process.stdin.write(s)] *)
Definition proc_stdin_write (s : text) : M unit :=
  with_process (fun pr =>
    from_raises (write_raises pr) ;;
    update_process
      (mkPopen (args pr) (poll_result pr) (stdin_data pr ++ [s])
               (write_raises pr) (flush_raises pr) (wait_script pr)
               (kill_raises pr))).

(** [server_process.stdin.flush()] *)
Definition proc_stdin_flush : M unit :=
  with_process (fun pr => from_raises (flush_raises pr)).

(** [server_process.wait(timeout=t)]: at once when the child has exited;
    otherwise the next answer of the script, an exception (the child
    still runs) or the exit. *)
Definition proc_wait (t : Z) : M unit :=
  with_process (fun pr =>
    match poll_result pr with
    | Some _ => ret tt
    | None =>
        match wait_script pr with
        | Some e :: rest =>
            update_process
              (mkPopen (args pr) None (stdin_data pr) (write_raises pr)
                       (flush_raises pr) rest (kill_raises pr)) ;;
            raise e
        | None :: rest =>
            update_process
              (mkPopen (args pr) (Some 0%Z) (stdin_data pr) (write_raises pr)
                       (flush_raises pr) rest (kill_raises pr))
        | [] =>
            update_process
              (mkPopen (args pr) (Some 0%Z) (stdin_data pr) (write_raises pr)
                       (flush_raises pr) [] (kill_raises pr))
        end
    end).

(** [server_process.kill()] *)
Definition proc_kill : M unit :=
  with_process (fun pr => from_raises (kill_raises pr)).

(** *** The operations *)

Definition server_exists (w : world) : bool := isdir_SERVER_DIR w.

Definition is_server_running (w : world) : bool :=
  match server_process w with
  | Some pr => match poll_result pr with None => true | Some _ => false end
  | None => false
  end.

Definition stop_server (timeout : Z) : M unit :=
  running <- gets is_server_running ;;
  if negb running then log INFO "No server process is running."
  else
    try_finally
      (try_except
         (proc_stdin_write (lit "stop" ++ [LF]) ;;
          proc_stdin_flush ;;
          proc_wait timeout ;;
          log INFO "Minecraft server stopped gracefully.")
         isinstance_Exception
         (fun _ =>
            log WARNING "Graceful stop failed ({e}); killing process..." ;;
            try_except
              (proc_kill ;;
               proc_wait timeout ;;
               log INFO "Minecraft server killed.")
              isinstance_Exception
              (fun _ => log ERROR "Error killing Minecraft process: {kill_err}")))
      (modify (set_server_process None)).

(** The RAM setting of [launch_server]: 2 unless [ram.txt] exists and
    holds an integer that is at least 1. *)
Definition read_ram : M Z :=
  f <- gets ram_txt ;;
  match f with
  | None => ret 2%Z
  | Some file =>
      try_except
        (content <- match file with
                    | inl e => raise e
                    | inr s => ret s
                    end ;;
         lim <- gets int_max_str_digits ;;
         match int_of_str lim (strip content) with
         | None => raise ValueError
         | Some ram_val =>
             if (1 <=? ram_val)%Z then ret ram_val
             else
               log WARNING
                   "Invalid RAM value in {ram_file}; defaulting to 2 GB." ;;
               ret 2%Z
         end)
        isinstance_ValueError
        (fun _ =>
           log WARNING
               "Non-integer RAM value in {ram_file}; defaulting to 2 GB." ;;
           ret 2%Z)
  end.

(** The argument list given to [subprocess.Popen]. *)
Definition java_command (ram : Z) : list text :=
  [ lit "java";
    lit "-Xmx" ++ str_of_int ram ++ lit "G";
    lit "-Xms" ++ str_of_int ram ++ lit "G";
    lit "-jar";
    lit "server.jar";
    lit "nogui" ].

(** [subprocess.Popen(argv, ...)] assigned to [server_process]. *)
Definition popen (argv : list text) : M unit :=
  r <- gets popen_raises ;;
  from_raises r ;;
  c <- gets child ;;
  update_process
    (mkPopen argv (poll_result c) (stdin_data c) (write_raises c)
             (flush_raises c) (wait_script c) (kill_raises c)).

(** The output pump [stream_logs] is started as a thread at the end; its
    effect on the buffer is [stream_logs] below. *)
Definition launch_server : M unit :=
  running <- gets is_server_running ;;
  (if running then
     log INFO "Server is already running. Attempting to stop it first..." ;;
     stop_server 30 ;;
     try_except
       (proc_wait 30)
       isinstance_TimeoutExpired
       (fun _ =>
          log WARNING "Timeout while waiting for existing server to stop.")
   else ret tt) ;;
  ram <- read_ram ;;
  modify (set_server_output []) ;;
  try_except
    (popen (java_command ram) ;;
     log INFO "Launched Minecraft server with {ram} GB RAM.")
    isinstance_Exception
    (fun _ =>
       log ERROR "Failed to launch Minecraft server: {e}" ;;
       modify (set_server_process None)).

(** One turn of the loop of [stream_logs], under [output_lock]. *)
Definition append_line (buf : list text) (line : text) : list text :=
  let trimmed := strip line in
  let buf' := buf ++ [trimmed] in
  if Nat.ltb MAX_LOG_LINES (List.length buf') then tl buf' else buf'.

(** [stream_logs] on the lines read from the child's output. *)
Definition stream_logs (stdout : list text) (buf : list text) : list text :=
  fold_left append_line stdout buf.

Definition get_logs (w : world) : text :=
  match server_output w with
  | [] => lit "Server is starting or not running yet..."
  | _ :: _ => join [LF] (server_output w)
  end.

Definition delete_server : M bool :=
  running <- gets is_server_running ;;
  (if running then stop_server 30 else ret tt) ;;
  try_except
    (isd <- gets isdir_SERVER_DIR ;;
     (if isd then
        r <- gets rmtree_raises ;;
        from_raises r ;;
        modify remove_tree ;;
        log INFO "Deleted server directory: {SERVER_DIR}"
      else ret tt) ;;
     ret true)
    isinstance_OSError
    (fun _ =>
       log ERROR "Failed to delete server directory '{SERVER_DIR}': {e}" ;;
       ret false).

Definition send_command (cmd : text) : M bool :=
  running <- gets is_server_running ;;
  if negb running then
    log WARNING "Attempted to send command, but server is not running." ;;
    ret false
  else
    try_except
      (proc_stdin_write (cmd ++ [LF]) ;;
       proc_stdin_flush ;;
       log INFO "Sent command to server: {cmd}" ;;
       ret true)
      isinstance_Exception
      (fun _ =>
         log ERROR "Failed to send command '{cmd}': {e}" ;;
         ret false).

(** *** [get_playit_status] *)

Record playit : Type := mkPlayit {
  tunnel_ready : bool;
  claim_url : option text;
  joinmc_domain : option text
}.

Inductive flow : Type := Continue | Break.

(** The body of the loop on one line. *)
Definition scan_line (line : text) (st : playit) : flow * playit :=
  let lower := PyStr.lower line in
  match
    (if contains (lit "found minecraft java tunnel") lower
     then search re_joinmc line else None)
  with
  | Some d => (Break, mkPlayit true (claim_url st) (Some d))
  | None =>
      if contains (lit "claim visit") lower && negb (tunnel_ready st)
      then
        match search re_claim line with
        | Some u => (Continue, mkPlayit (tunnel_ready st) (Some u)
                                       (joinmc_domain st))
        | None => (Continue, st)
        end
      else (Continue, st)
  end.

Fixpoint scan (lines : list text) (st : playit) : playit :=
  match lines with
  | [] => st
  | line :: rest =>
      match scan_line line st with
      | (Break, st') => st'
      | (Continue, st') => scan rest st'
      end
  end.

(** [lst[-n:]] *)
Definition last_n {A} (n : nat) (l : list A) : list A :=
  skipn (List.length l - n) l.

Definition get_playit_status (w : world) : playit :=
  scan (rev (last_n MAX_LOG_LINES (server_output w)))
       (mkPlayit false None None).

End Runner.

(** ** [app.py] *)

Module App.

Import Runner.

Definition has_done (line : text) : bool :=
  contains (lit "done (") (lower line).

Definition get_server_state (w : world) : text :=
  if negb (server_exists w) then lit "offline"
  else if negb (is_server_running w) then lit "offline"
  else
    let logs := splitlines (get_logs w) in
    if existsb has_done (rev logs) then lit "online"
    else lit "booting".

(** The route [/command]: [valid] is the answer of
    [form.validate_on_submit()] and [data] the submitted field; the result
    is the value of ["sent"] in the JSON answer. *)
Definition command (valid : bool) (data : text) : M bool :=
  if valid then
    let cmd_text := strip data in
    match cmd_text with
    | _ :: _ => send_command cmd_text
    | [] => ret false
    end
  else ret false.

(** *** [secure_server_path]

    The string functions it uses, for a POSIX system ([os.sep] is ["/"]).
    [os.path.realpath] depends on the file system (symbolic links, the
    current directory) and is a parameter. *)

(** [s.replace(old, new)] for one-character strings. *)
Definition replace_char (old new : ascii) (s : text) : text :=
  map (fun c => if Ascii.eqb c old then new else c) s.

(** [s.lstrip(x)] for a one-character string [x]. *)
Fixpoint lstrip_char (x : ascii) (s : text) : text :=
  match s with
  | c :: s' => if Ascii.eqb c x then lstrip_char x s' else s
  | [] => []
  end.

Definition endswith_char (x : ascii) (s : text) : bool :=
  match rev s with
  | c :: _ => Ascii.eqb c x
  | [] => false
  end.

(** [os.path.join(a, b)] of [posixpath]. *)
Definition path_join (a b : text) : text :=
  match b with
  | c :: _ =>
      if Ascii.eqb c "/" then b
      else
        match a with
        | [] => a ++ b
        | _ :: _ => if endswith_char "/" a then a ++ b else a ++ "/"%char :: b
        end
  | [] =>
      match a with
      | [] => a ++ b
      | _ :: _ => if endswith_char "/" a then a ++ b else a ++ "/"%char :: b
      end
  end.

Fixpoint text_eqb (a b : text) : bool :=
  match a, b with
  | [], [] => true
  | x :: a', y :: b' => Ascii.eqb x y && text_eqb a' b'
  | _, _ => false
  end.

(** [None] stands for [abort(400)]. *)
Definition secure_server_path (realpath : text -> text) (SERVER_DIR : text)
           (rel_path : text) : option text :=
  let rel_path := lstrip_char "/" (replace_char "\" "/" rel_path) in
  let abs_path := realpath (path_join SERVER_DIR rel_path) in
  let server_real := realpath SERVER_DIR in
  if negb (text_eqb abs_path server_real
           || startswith (server_real ++ ["/"%char]) abs_path)
  then None
  else Some abs_path.

End App.

(** ** [server_runner.py]: [create_server], and the route [/] of [app.py]
    that calls it *)

Module Provision.

Import Runner.

(** What a step of [create_server] can raise: a
    [requests.RequestException] (which is an [OSError]), another
    [OSError], or something that is neither. *)
Inductive failure : Type :=
| RequestException
| FilesystemError
| OtherError.

Definition is_RequestException (f : failure) : bool :=
  match f with RequestException => true | _ => false end.

Definition is_OSError (f : failure) : bool :=
  match f with OtherError => false | _ => true end.

(** The answers of the operating system and of the network to the steps
    of [create_server], in the order of the source.  [api_get] is the
    request to the PaperMC API up to [resp.json()] and the lookup of
    ["builds"] in it: a failure, or the value of the key ([None] when the
    key is absent). *)
Record internet : Type := mkInternet {
  makedirs_server : option failure;
  api_get : failure + option (list Z);
  jar_get : option failure;
  jar_save : option failure;
  eula_write : option failure;
  makedirs_plugins : option failure;
  plugin_get : option failure;
  plugin_save : option failure;
  ram_write : option failure
}.

(** The files of the working directory that [create_server] writes, apart
    from [ram.txt]: whether each download was saved in full, and the
    content of [eula.txt]. *)
Record disk : Type := mkDisk {
  server_jar : bool;
  eula_txt : option text;
  plugins_dir : bool;
  plugin_jar : bool
}.

(** The supervisor's world, the other files, and the URLs requested so
    far (oldest first). *)
Record site : Type := mkSite {
  sv : world;
  dk : disk;
  requested : list text
}.

Definition set_isdir (b : bool) (w : world) : world :=
  mkWorld (server_process w) (server_output w) b (ram_txt w)
          (rmtree_raises w) (popen_raises w) (child w)
          (int_max_str_digits w) (logged w).

Definition set_ram_txt (f : option (exn + text)) (w : world) : world :=
  mkWorld (server_process w) (server_output w) (isdir_SERVER_DIR w) f
          (rmtree_raises w) (popen_raises w) (child w)
          (int_max_str_digits w) (logged w).

Inductive outcome (A : Type) : Type :=
| Done (a : A)
| Failed (f : failure).
Arguments Done {A} a.
Arguments Failed {A} f.

Definition Prov (A : Type) : Type := site -> outcome A * site.

Definition prov_ret {A} (a : A) : Prov A := fun s => (Done a, s).

Definition prov_bind {A B} (m : Prov A) (k : A -> Prov B) : Prov B :=
  fun s =>
    match m s with
    | (Done a, s') => k a s'
    | (Failed f, s') => (Failed f, s')
    end.

Definition prov_try {A} (body : Prov A) (C : failure -> bool)
           (handler : failure -> Prov A) : Prov A :=
  fun s =>
    match body s with
    | (Done a, s') => (Done a, s')
    | (Failed f, s') => if C f then handler f s' else (Failed f, s')
    end.

Declare Scope prov_scope.
Delimit Scope prov_scope with prov.
Notation "x <- m ;; k" := (prov_bind m (fun x => k))
  (at level 61, m at next level, right associativity) : prov_scope.
Notation "m ;; k" := (prov_bind m (fun _ => k))
  (at level 61, right associativity) : prov_scope.
Local Open Scope prov_scope.

(** A step that the environment lets succeed or fail. *)
Definition step (o : option failure) : Prov unit :=
  fun s =>
    match o with
    | Some f => (Failed f, s)
    | None => (Done tt, s)
    end.

Definition on_world (f : world -> world) : Prov unit :=
  fun s => (Done tt, mkSite (f (sv s)) (dk s) (requested s)).

Definition on_disk (f : disk -> disk) : Prov unit :=
  fun s => (Done tt, mkSite (sv s) (f (dk s)) (requested s)).

Definition prov_log (l : level) (msg : string) : Prov unit :=
  on_world (add_log (l, msg)).

(** [requests.get(url, ...)] followed by [raise_for_status()]. *)
Definition http_get (url : text) (o : option failure) : Prov unit :=
  fun s =>
    let s' := mkSite (sv s) (dk s) (requested s ++ [url]) in
    match o with
    | Some f => (Failed f, s')
    | None => (Done tt, s')
    end.

Definition PLUGIN_URL : text :=
  lit "https://github.com/playit-cloud/playit-minecraft-plugin/releases/latest/download/playit-minecraft-plugin.jar".

Definition api_url (version : text) : text :=
  lit "https://api.papermc.io/v2/projects/paper/versions/" ++ version.

Definition jar_url (version : text) (latest_build : Z) : text :=
  lit "https://api.papermc.io/v2/projects/paper/versions/" ++ version
  ++ lit "/builds/" ++ str_of_int latest_build
  ++ lit "/downloads/paper-" ++ version ++ lit "-"
  ++ str_of_int latest_build ++ lit ".jar".

(** The request for the build list: the value of ["builds"], or [None]
    after a [RequestException], which is logged. *)
Definition fetch_builds (net : internet) (version : text)
  : Prov (option (option (list Z))) :=
  prov_try
    (http_get (api_url version)
              (match api_get net with inl f => Some f | inr _ => None end) ;;
     prov_ret (match api_get net with
            | inl _ => None
            | inr builds => Some builds
            end))
    is_RequestException
    (fun _ =>
       prov_log ERROR "Error fetching build info from PaperMC API: {e}" ;;
       prov_ret None).

(** A download: [True] when it was saved, [False] after a
    [RequestException], which is logged. *)
Definition download (url : text) (get save : option failure)
           (saved : disk -> disk) (ok_msg err_msg : string) : Prov bool :=
  prov_try
    (http_get url get ;;
     step save ;;
     on_disk saved ;;
     prov_log INFO ok_msg ;;
     prov_ret true)
    is_RequestException
    (fun _ => prov_log ERROR err_msg ;; prov_ret false).

Definition create_server (net : internet) (version : text) (ram : Z)
  : Prov bool :=
  prov_try
    (step (makedirs_server net) ;;
     on_world (set_isdir true) ;;
     prov_log INFO "Created/verified server directory: {SERVER_DIR}" ;;
     fetched <- fetch_builds net version ;;
     match fetched with
     | None => prov_ret false
     | Some None | Some (Some []) =>
         prov_log ERROR "No builds found for version '{version}'." ;;
         prov_ret false
     | Some (Some (b :: builds)) =>
         let latest_build := last (b :: builds) b in
         got_jar <- download (jar_url version latest_build)
                             (jar_get net) (jar_save net)
                             (fun d => mkDisk true (eula_txt d)
                                              (plugins_dir d) (plugin_jar d))
                             "Downloaded PaperMC jar: {jar_path}"
                             "Error downloading PaperMC JAR: {e}" ;;
         if negb got_jar then prov_ret false
         else
           step (eula_write net) ;;
           on_disk (fun d => mkDisk (server_jar d)
                                    (Some (lit "eula=true" ++ [LF]))
                                    (plugins_dir d) (plugin_jar d)) ;;
           prov_log INFO "Wrote eula.txt (accepted)" ;;
           step (makedirs_plugins net) ;;
           on_disk (fun d => mkDisk (server_jar d) (eula_txt d) true
                                    (plugin_jar d)) ;;
           got_plugin <- download PLUGIN_URL
                                  (plugin_get net) (plugin_save net)
                                  (fun d => mkDisk (server_jar d) (eula_txt d)
                                                   (plugins_dir d) true)
                                  "Downloaded Playit plugin: {plugin_path}"
                                  "Error downloading Playit plugin: {e}" ;;
           if negb got_plugin then prov_ret false
           else
             step (ram_write net) ;;
             on_world (set_ram_txt (Some (inr (str_of_int ram)))) ;;
             prov_log INFO "Recorded RAM allocation ({ram} GB) in {ram_file}" ;;
             prov_ret true
     end)
    is_OSError
    (fun _ =>
       prov_log ERROR "Filesystem error during server creation: {e}" ;;
       prov_ret false).

(** *** The route [/]

    [submitted] is the validated form of a POST ([None] otherwise),
    [available] the available memory in bytes
    ([psutil.virtual_memory().available]). *)
Inductive response : Type :=
| RenderCreate (flash : option string)
| RedirectIndex (flash : option string)
| RenderControl.

Inductive crash : Type :=
| CreateRaised (f : failure)
| LaunchRaised (e : exn).

Definition free_ram (available : Z) : Z := (available / 1024 ^ 3)%Z.

Definition index (net : internet) (available : Z)
           (submitted : option (text * Z)) (s : site)
  : (response + crash) * site :=
  if negb (server_exists (sv s)) then
    match submitted with
    | Some (version, requested_ram) =>
        if (free_ram available <? requested_ram)%Z
        then (inl (RenderCreate (Some "danger"%string)), s)
        else
          match create_server net version requested_ram s with
          | (Done true, s1) =>
              match launch_server (sv s1) with
              | (Ret _, w2) =>
                  (inl (RedirectIndex (Some "success"%string)),
                   mkSite w2 (dk s1) (requested s1))
              | (Raise e, w2) =>
                  (inr (LaunchRaised e), mkSite w2 (dk s1) (requested s1))
              end
          | (Done false, s1) =>
              (inl (RenderCreate (Some "danger"%string)), s1)
          | (Failed f, s1) => (inr (CreateRaised f), s1)
          end
    | None => (inl (RenderCreate None), s)
    end
  else (inl RenderControl, s).

End Provision.

Import Runner.
Import App.
Import Provision.
Local Open Scope py_scope.

(** ** Notions used in the statements *)

(** The first character, if there is one, satisfies [P]. *)
Definition head_is (P : ascii -> bool) (s : text) : bool :=
  match s with
  | c :: _ => P c
  | [] => false
  end.

Definition starts_with_space : text -> bool := head_is isspace.

(** [pat in s.lower()] *)
Definition has (pat s : text) : bool := contains pat (lower s).

(** A computation keeps [P] when [P] holds after it whenever it held
    before, whether it returns or raises. *)
Definition keeps {A} (P : world -> Prop) (m : M A) : Prop :=
  forall w, P w -> P (snd (m w)).

(** A computation is contained when the only exceptions that leave it are
    not instances of [Exception]. *)
Definition contained {A} (m : M A) : Prop :=
  forall w e, fst (m w) = Raise e -> isinstance_Exception e = false.

(** [p] is sound for the language [L]: each success splits the input
    into a matched text of [L] and the rest. *)
Definition sound (p : parser text) (L : text -> Prop) : Prop :=
  forall s m r, In (m, r) (p s) -> s = m ++ r /\ L m.

Definition DOT_JOINMC_LINK : text := lit ".joinmc.link".

(** The scheme prefixes a domain may carry in a log line. *)
Definition schemes : list text := [lit ""; lit "http://"; lit "https://"].

Definition ready_marker (line : text) : bool :=
  contains (lit "found minecraft java tunnel") (lower line).

Definition claim_marker (line : text) : bool :=
  contains (lit "claim visit") (lower line).

(** The domain is the first one of the line: no ".joinmc.link" ends before
    the end of the domain. *)
Definition first_domain (pre sch label : text) : Prop :=
  contains DOT_JOINMC_LINK (lower (pre ++ sch ++ label ++ lit ".joinmc.lin"))
  = false.

Definition scheme_like (m : text) : Prop :=
  m = [] \/ lower m = lit "http://" \/ lower m = lit "https://".

(** The argument list of the child that [launch_server] leaves in
    [server_process]. *)
Definition launched_args (w : world) : option (list text) :=
  option_map args (server_process (snd (launch_server w))).

Definition heap_flags (ram : Z) : list text :=
  [lit "-Xmx" ++ str_of_int ram ++ lit "G";
   lit "-Xms" ++ str_of_int ram ++ lit "G"].

Definition warned (msg : string) (w : world) : Prop :=
  In (WARNING, msg) (logged (snd (launch_server w))).

(** The text on the child's standard input after a write. *)
Definition with_stdin (pr : Popen) (data : list text) : Popen :=
  mkPopen (args pr) (poll_result pr) data (write_raises pr)
          (flush_raises pr) (wait_script pr) (kill_raises pr).

(** The child that [subprocess.Popen] returns for an argument list. *)
Definition spawned (argv : list text) (c : Popen) : Popen :=
  mkPopen argv (poll_result c) (stdin_data c) (write_raises c)
          (flush_raises c) (wait_script c) (kill_raises c).

Definition no_linebreak (line : text) : bool :=
  forallb (fun c => negb (is_linebreak c)) line.

(** The world after a creation in which every step succeeded. *)
Definition created_world (ram : Z) (w : world) : world :=
  add_log (INFO, "Recorded RAM allocation ({ram} GB) in {ram_file}"%string)
    (set_ram_txt (Some (inr (str_of_int ram)))
       (add_log (INFO, "Downloaded Playit plugin: {plugin_path}"%string)
          (add_log (INFO, "Wrote eula.txt (accepted)"%string)
             (add_log (INFO, "Downloaded PaperMC jar: {jar_path}"%string)
                (add_log (INFO,
                          "Created/verified server directory: {SERVER_DIR}"%string)
                         (set_isdir true w)))))).

(** Every step of [create_server] succeeds, and the build list is
    [builds]. *)
Definition all_steps_succeed (net : internet) (builds : list Z) : Prop :=
  makedirs_server net = None
  /\ api_get net = inr (Some builds)
  /\ builds <> []
  /\ jar_get net = None
  /\ jar_save net = None
  /\ eula_write net = None
  /\ makedirs_plugins net = None
  /\ plugin_get net = None
  /\ plugin_save net = None
  /\ ram_write net = None.

(** ** Sample worlds and buffers *)

Definition numbered_lines (n : nat) : list text :=
  map (fun i => str_of_int (Z.of_nat i)) (seq 0 n).

(** A child that stops on the "stop" command. *)
Definition quiet_child : Popen :=
  mkPopen [] None [] None None [] None.

(** A child whose pipe is closed, that outlives the kill, and whose kill
    then fails as well. *)
Definition stubborn_child : Popen :=
  mkPopen [] None [] (Some BrokenPipeError) None
          [Some TimeoutExpired; Some TimeoutExpired] (Some PermissionError).

Definition world_with (p : option Popen) (buf : list text) (isdir : bool)
           (ram : option (exn + text)) : world :=
  mkWorld p buf isdir ram None None quiet_child 4300 [].

(** A stale buffer of a previous run. *)
Definition stale_buffer : list text :=
  [lit "Starting minecraft server"; lit "[Server] Done (12.3s)!"].

Definition booting_buffer : list text :=
  [lit "Starting..."; lit "Loading world..."].

(** A world in which a server is running. *)
Definition running_world : world :=
  world_with (Some quiet_child) [lit "[Server] Done (3.1s)!"] true
             (Some (inr (lit "4"))).

(** A directory that cannot be removed. *)
Definition locked_world : world :=
  mkWorld None [] true None (Some PermissionError) None quiet_child 4300 [].

Definition ram_world (ram : option (exn + text)) : world :=
  world_with None stale_buffer true ram.

Definition java_with (x m : string) : option (list text) :=
  Some [lit "java"; lit x; lit m; lit "-jar"; lit "server.jar"; lit "nogui"].

Definition tunnel_buffer : list text :=
  [ lit "[playit] failed to exchange, to claim visit: https://playit.gg/mc/AB12";
    lit "[gg.playit] Found minecraft java tunnel: https://foo.joinmc.link";
    lit "[Server] Done (12.3s)!" ].

(** Two claim lines, the older one first. *)
Definition two_claims_buffer : list text :=
  [ lit "[playit] failed to exchange, to claim visit: https://playit.gg/mc/OLD111";
    lit "[Server] Preparing spawn area";
    lit "[playit] failed to exchange, to claim visit: https://playit.gg/mc/NEW222" ].

(** All the steps succeeding, with the builds 196, 197 and 201. *)
Definition good_net : internet :=
  mkInternet None (inr (Some [196; 197; 201]%Z)) None None None None None
             None None.

(** A site without working directory and without process. *)
Definition fresh_site : site :=
  mkSite (world_with None [] false None) (mkDisk false None false false) [].

(** The directory is made, the build list cannot be fetched. *)
Definition offline_net : internet :=
  mkInternet None (inl RequestException) None None None None None None None.

(** * Properties *)

(** ** The log buffer *)

Section LogBuffer.

Lemma last_n_short (A : Type) (n : nat) (l : list A) :
  List.length l <= n -> last_n n l = l.
Proof.
  intros H. unfold last_n.
  replace (List.length l - n) with 0 by lia. reflexivity.
Qed.

Lemma last_n_length (A : Type) (n : nat) (l : list A) :
  List.length (last_n n l) = Nat.min n (List.length l).
Proof. unfold last_n. rewrite length_skipn. lia. Qed.

(** Only the tail of a list counts once it is long enough. *)
Lemma last_n_app_long (A : Type) (n : nat) (x y : list A) :
  n <= List.length y -> last_n n (x ++ y) = last_n n y.
Proof.
  intros H. unfold last_n.
  rewrite skipn_app, length_app.
  rewrite (skipn_all2 x) by lia.
  simpl. f_equal. lia.
Qed.

Lemma last_n_idem_app (A : Type) (n : nat) (a b : list A) :
  last_n n (last_n n a ++ b) = last_n n (a ++ b).
Proof.
  destruct (Nat.le_gt_cases (List.length a) n) as [Hle | Hgt].
  - rewrite (last_n_short A n a) by assumption. reflexivity.
  - rewrite <- (firstn_skipn (List.length a - n) a) at 2.
    rewrite <- app_assoc.
    symmetry. apply last_n_app_long.
    rewrite length_app. fold (last_n n a). rewrite last_n_length. lia.
Qed.

Lemma append_line_last_n (buf : list text) (line : text) :
  List.length buf <= MAX_LOG_LINES ->
  append_line buf line = last_n MAX_LOG_LINES (buf ++ [strip line]).
Proof.
  intros H. unfold append_line.
  destruct (Nat.ltb_spec MAX_LOG_LINES (List.length (buf ++ [strip line])))
    as [Hlt | Hge].
  - rewrite length_app in Hlt. simpl in Hlt.
    unfold last_n. rewrite length_app. simpl.
    replace (List.length buf + 1 - MAX_LOG_LINES) with 1 by lia.
    reflexivity.
  - rewrite last_n_short by assumption. reflexivity.
Qed.

Lemma append_line_bounded (buf : list text) (line : text) :
  List.length buf <= MAX_LOG_LINES ->
  List.length (append_line buf line) <= MAX_LOG_LINES.
Proof.
  intros H. rewrite append_line_last_n by assumption.
  rewrite last_n_length. lia.
Qed.

Lemma stream_logs_last_n (stdout : list text) :
  forall buf,
    List.length buf <= MAX_LOG_LINES ->
    stream_logs stdout buf
    = last_n MAX_LOG_LINES (buf ++ map strip stdout).
Proof.
  unfold stream_logs.
  induction stdout as [| line rest IH]; intros buf Hbuf; simpl.
  - rewrite app_nil_r. rewrite last_n_short by assumption. reflexivity.
  - rewrite IH by now apply append_line_bounded.
    rewrite append_line_last_n by assumption.
    rewrite last_n_idem_app, <- app_assoc. reflexivity.
Qed.

Lemma stream_logs_bounded (stdout buf : list text) :
  List.length buf <= MAX_LOG_LINES ->
  List.length (stream_logs stdout buf) <= MAX_LOG_LINES.
Proof.
  intros H. rewrite stream_logs_last_n by assumption.
  rewrite last_n_length. lia.
Qed.

Lemma append_line_at_capacity (buf : list text) (line : text) :
  List.length buf = MAX_LOG_LINES ->
  append_line buf line = tl buf ++ [strip line].
Proof.
  intros H. unfold append_line.
  rewrite length_app. simpl.
  destruct (Nat.ltb_spec MAX_LOG_LINES (List.length buf + 1)); [| lia].
  destruct buf as [| b bs]; [discriminate H | reflexivity].
Qed.

Lemma append_line_below_capacity (buf : list text) (line : text) :
  List.length buf < MAX_LOG_LINES ->
  append_line buf line = buf ++ [strip line].
Proof.
  intros H. unfold append_line.
  rewrite length_app. simpl.
  destruct (Nat.ltb_spec MAX_LOG_LINES (List.length buf + 1)); [lia |].
  reflexivity.
Qed.

End LogBuffer.

(** C3.  Starting from the cleared buffer, after every append (every
    prefix of the lines the pump reads) the buffer holds at most 300 lines;
    once more than 300 lines have been appended it holds exactly the last
    300 appended (trimmed) lines, oldest first; and an append at capacity
    drops the oldest line and puts the new one at the end. *)
Theorem C3_log_buffer_bounded_fifo :
  forall stdout : list text,
    (forall k, List.length (stream_logs (firstn k stdout) []) <= 300)
    /\ (forall k,
           300 < List.length (firstn k stdout) ->
           stream_logs (firstn k stdout) []
           = skipn (List.length (firstn k stdout) - 300)
                   (map strip (firstn k stdout)))
    /\ (forall buf line,
           List.length buf = 300 ->
           append_line buf line = tl buf ++ [strip line]).
Proof.
  intros stdout. split; [| split].
  - intros k. apply (stream_logs_bounded (firstn k stdout) []). simpl. lia.
  - intros k _. rewrite stream_logs_last_n by (simpl; lia).
    simpl. unfold last_n. now rewrite length_map.
  - intros buf line H. now apply append_line_at_capacity.
Qed.

Lemma C3_witness :
  stream_logs (firstn 302 (numbered_lines 305)) []
  = skipn 2 (map strip (numbered_lines 302))
  /\ append_line (numbered_lines 300) (lit " x ")
     = tl (numbered_lines 300) ++ [lit "x"].
Proof.
  split.
  - apply (proj1 (proj2 (C3_log_buffer_bounded_fifo (numbered_lines 305))) 302).
    vm_compute. lia.
  - apply (proj2 (proj2 (C3_log_buffer_bounded_fifo []))).
    vm_compute. reflexivity.
Defined.

(** ** Whitespace trimming *)

Section Strip.

Lemma lstrip_split (s : text) :
  exists pre, s = pre ++ lstrip s /\ forallb isspace pre = true.
Proof.
  induction s as [| c s [pre [Heq Hsp]]]; simpl.
  - exists []. now split.
  - destruct (isspace c) eqn:Hc.
    + exists (c :: pre). simpl. rewrite Hc, Hsp. split; [now f_equal | easy].
    + exists []. now split.
Qed.

Lemma lstrip_no_leading_space (s : text) :
  starts_with_space (lstrip s) = false.
Proof.
  induction s as [| c s IH]; simpl; [reflexivity |].
  destruct (isspace c) eqn:Hc; [exact IH | simpl; exact Hc].
Qed.

Lemma rstrip_split (s : text) :
  exists post, s = rstrip s ++ post /\ forallb isspace post = true.
Proof.
  unfold rstrip.
  destruct (lstrip_split (rev s)) as [pre [Heq Hsp]].
  exists (rev pre). split.
  - rewrite <- rev_app_distr, <- Heq. now rewrite rev_involutive.
  - rewrite forallb_forall in *. intros c Hc. apply Hsp.
    now apply in_rev.
Qed.

Lemma rstrip_no_trailing_space (s : text) :
  starts_with_space (rev (rstrip s)) = false.
Proof.
  unfold rstrip. rewrite rev_involutive. apply lstrip_no_leading_space.
Qed.

(** What is left of a string without leading space after removing a
    suffix still has no leading space, unless nothing is left. *)
Lemma rstrip_keeps_head (s : text) :
  starts_with_space s = false -> starts_with_space (rstrip s) = false.
Proof.
  intros H. destruct (rstrip_split s) as [post [Heq _]].
  destruct (rstrip s) as [| c r]; [reflexivity |].
  rewrite Heq in H. exact H.
Qed.

Lemma strip_spec (s : text) :
  exists pre post,
    s = pre ++ strip s ++ post
    /\ forallb isspace pre = true
    /\ forallb isspace post = true
    /\ starts_with_space (strip s) = false
    /\ starts_with_space (rev (strip s)) = false.
Proof.
  unfold strip.
  destruct (lstrip_split s) as [pre [Hpre Hsp1]].
  destruct (rstrip_split (lstrip s)) as [post [Hpost Hsp2]].
  exists pre, post. repeat split; try assumption.
  - now rewrite <- Hpost.
  - apply rstrip_keeps_head, lstrip_no_leading_space.
  - apply rstrip_no_trailing_space.
Qed.

Lemma append_line_appends (buf : list text) (line : text) :
  exists front, append_line buf line = front ++ [strip line].
Proof.
  unfold append_line.
  destruct (Nat.ltb MAX_LOG_LINES (List.length (buf ++ [strip line]))) eqn:E.
  - destruct buf as [| b bs].
    + simpl in E. discriminate E.
    + exists bs. reflexivity.
  - now exists buf.
Qed.

End Strip.

(** C8 as stated fails: the pump removes leading whitespace as well. *)
Lemma C8_counterexample :
  append_line [] (lit "  [INFO] up  ") = [lit "[INFO] up"]
  /\ rstrip (lit "  [INFO] up  ") = lit "  [INFO] up"
  /\ append_line [] (lit "  [INFO] up  ") <> [rstrip (lit "  [INFO] up  ")].
Proof.
  split; [reflexivity | split; [reflexivity |]].
  vm_compute. discriminate.
Qed.

(** C8, amended.  The line the pump appends (the last line of the buffer
    after the append) is the read line with whitespace trimmed at both
    ends: the read line is whitespace, then the appended line, then
    whitespace, and the appended line neither starts nor ends with a
    whitespace character. *)
Theorem C8_pump_appends_stripped_line :
  forall (buf : list text) (line : text),
    exists front pre post,
      append_line buf line = front ++ [strip line]
      /\ line = pre ++ strip line ++ post
      /\ forallb isspace pre = true
      /\ forallb isspace post = true
      /\ starts_with_space (strip line) = false
      /\ starts_with_space (rev (strip line)) = false.
Proof.
  intros buf line.
  destruct (append_line_appends buf line) as [front Hfront].
  destruct (strip_spec line) as [pre [post H]].
  exists front, pre, post. now split.
Qed.

(** ** Readiness *)

(** C4.  The readiness state is "offline" whenever the working directory
    does not exist or the process is not alive, whatever the buffer
    holds. *)
Theorem C4_offline_overrides_buffer :
  forall w : world,
    server_exists w = false \/ is_server_running w = false ->
    get_server_state w = lit "offline".
Proof.
  intros w [H | H]; unfold get_server_state; rewrite H; simpl.
  - reflexivity.
  - now destruct (server_exists w).
Qed.

Lemma C4_witness :
  get_server_state (world_with (Some quiet_child) stale_buffer false None)
  = lit "offline"
  /\ get_server_state (world_with None stale_buffer true None)
     = lit "offline".
Proof.
  split.
  - apply (C4_offline_overrides_buffer
             (world_with (Some quiet_child) stale_buffer false None)).
    left. reflexivity.
  - apply (C4_offline_overrides_buffer
             (world_with None stale_buffer true None)).
    right. reflexivity.
Defined.

(** ** Lifecycle *)

Section Lifecycle.

(** Whatever the body does, the cleanup of [stop_server] runs last. *)
Lemma finally_clears_handle (A : Type) (body : M A) (w : world) :
  server_process
    (snd (try_finally body (modify (set_server_process None)) w)) = None.
Proof.
  unfold try_finally, modify.
  destruct (body w) as [r w']. reflexivity.
Qed.

Lemma stop_server_clears_handle (w : world) (timeout : Z) :
  is_server_running w = true ->
  server_process (snd (stop_server timeout w)) = None.
Proof.
  intros H. unfold stop_server, bind, gets. rewrite H. simpl.
  apply finally_clears_handle.
Qed.

Variable P : world -> Prop.
Hypothesis P_log : forall r w, P w -> P (add_log r w).
Hypothesis P_handle : forall p w, P w -> P (set_server_process p w).

Lemma keeps_ret (A : Type) (a : A) : keeps P (ret a).
Proof. intros w H. exact H. Qed.

Lemma keeps_raise (A : Type) (e : exn) : keeps P (@raise A e).
Proof. intros w H. exact H. Qed.

Lemma keeps_gets (A : Type) (f : world -> A) : keeps P (gets f).
Proof. intros w H. exact H. Qed.

Lemma keeps_bind (A B : Type) (m : M A) (f : A -> M B) :
  keeps P m -> (forall a, keeps P (f a)) -> keeps P (bind m f).
Proof.
  intros Hm Hf w H. unfold bind.
  specialize (Hm w H).
  destruct (m w) as [[a | e] w']; simpl in *.
  - now apply Hf.
  - exact Hm.
Qed.

Lemma keeps_try_except (A : Type) (body : M A) (C : exn -> bool)
      (h : exn -> M A) :
  keeps P body -> (forall e, keeps P (h e)) -> keeps P (try_except body C h).
Proof.
  intros Hb Hh w H. unfold try_except.
  specialize (Hb w H).
  destruct (body w) as [[a | e] w']; simpl in *.
  - exact Hb.
  - destruct (C e); [now apply Hh | exact Hb].
Qed.

Lemma keeps_try_finally (A : Type) (body : M A) (fin : M unit) :
  keeps P body -> keeps P fin -> keeps P (try_finally body fin).
Proof.
  intros Hb Hf w H. unfold try_finally.
  specialize (Hb w H).
  destruct (body w) as [r w']; simpl in *.
  specialize (Hf w' Hb).
  destruct (fin w') as [[u | e] w'']; exact Hf.
Qed.

Lemma keeps_log (l : level) (msg : string) : keeps P (log l msg).
Proof. intros w H. now apply P_log. Qed.

Lemma keeps_from_raises (o : option exn) : keeps P (from_raises o).
Proof. destruct o; [apply keeps_raise | apply keeps_ret]. Qed.

Lemma keeps_update_process (pr : Popen) : keeps P (update_process pr).
Proof. intros w H. now apply P_handle. Qed.

Lemma keeps_with_process (A : Type) (f : Popen -> M A) :
  (forall pr, keeps P (f pr)) -> keeps P (with_process f).
Proof.
  intros Hf. unfold with_process.
  apply keeps_bind; [apply keeps_gets |].
  intros [pr |]; [apply Hf | apply keeps_raise].
Qed.

Lemma keeps_proc_wait (t : Z) : keeps P (proc_wait t).
Proof.
  apply keeps_with_process. intros pr.
  destruct (poll_result pr); [apply keeps_ret |].
  destruct (wait_script pr) as [| [e |] rest].
  - apply keeps_update_process.
  - apply keeps_bind; [apply keeps_update_process |].
    intros _. apply keeps_raise.
  - apply keeps_update_process.
Qed.

Lemma keeps_stop_server (t : Z) : keeps P (stop_server t).
Proof.
  unfold stop_server.
  apply keeps_bind; [apply keeps_gets |].
  intros running. destruct (negb running); [apply keeps_log |].
  apply keeps_try_finally; [| intros w H; now apply P_handle].
  apply keeps_try_except.
  - apply keeps_bind.
    + apply keeps_with_process. intros pr.
      apply keeps_bind; [apply keeps_from_raises |].
      intros _. apply keeps_update_process.
    + intros _. apply keeps_bind.
      * apply keeps_with_process. intros pr. apply keeps_from_raises.
      * intros _. apply keeps_bind; [apply keeps_proc_wait |].
        intros _. apply keeps_log.
  - intros e. apply keeps_bind; [apply keeps_log |].
    intros _. apply keeps_try_except.
    + apply keeps_bind.
      * apply keeps_with_process. intros pr. apply keeps_from_raises.
      * intros _. apply keeps_bind; [apply keeps_proc_wait |].
        intros _. apply keeps_log.
    + intros e'. apply keeps_log.
Qed.

End Lifecycle.

Section Contained.

Lemma contained_total (A : Type) (m : M A) :
  (forall w, exists a, fst (m w) = Ret a) -> contained m.
Proof.
  intros H w e He. destruct (H w) as [a Ha]. congruence.
Qed.

Lemma contained_log (l : level) (msg : string) : contained (log l msg).
Proof. apply contained_total. intros w. now exists tt. Qed.

Lemma contained_modify (f : world -> world) : contained (modify f).
Proof. apply contained_total. intros w. now exists tt. Qed.

Lemma contained_bind (A B : Type) (m : M A) (f : A -> M B) :
  contained m -> (forall a, contained (f a)) -> contained (bind m f).
Proof.
  intros Hm Hf w e. unfold bind.
  specialize (Hm w).
  destruct (m w) as [[a | e1] w1]; simpl in *.
  - apply Hf.
  - intros H. apply Hm. inversion H. reflexivity.
Qed.

(** [except Exception] lets nothing through but what the handler
    raises. *)
Lemma contained_except_Exception (A : Type) (body : M A)
      (h : exn -> M A) :
  (forall e, contained (h e)) ->
  contained (try_except body isinstance_Exception h).
Proof.
  intros Hh w e. unfold try_except.
  destruct (body w) as [[a | e1] w1]; simpl; [discriminate |].
  destruct (isinstance_Exception e1) eqn:E1.
  - apply Hh.
  - simpl. intros H. inversion H; subst. exact E1.
Qed.

Lemma contained_try_finally (A : Type) (body : M A) (fin : M unit) :
  contained body -> contained fin -> contained (try_finally body fin).
Proof.
  intros Hb Hf w e. unfold try_finally.
  specialize (Hb w).
  destruct (body w) as [r w1]; simpl in *.
  specialize (Hf w1).
  destruct (fin w1) as [[u | e2] w2]; simpl in *.
  - exact (Hb e).
  - intros H. apply Hf. inversion H. reflexivity.
Qed.

(** [stop_server] raises nothing that is an [Exception]: every such
    error of the graceful stop and of the kill is caught. *)
Lemma contained_stop_server (t : Z) : contained (stop_server t).
Proof.
  unfold stop_server.
  apply contained_bind.
  - apply contained_total. intros w. eexists. reflexivity.
  - intros running. destruct (negb running); [apply contained_log |].
    apply contained_try_finally; [| apply contained_modify].
    apply contained_except_Exception. intros e.
    apply contained_bind; [apply contained_log |].
    intros _. apply contained_except_Exception.
    intros e'. apply contained_log.
Qed.

End Contained.

(** C6.  When a process is alive at entry, the process handle is cleared
    when [stop_server] is left, on every path: graceful exit, escalation
    to kill, and a kill or a wait after it that raises. *)
Theorem C6_stop_clears_handle :
  forall (w : world) (timeout : Z),
    is_server_running w = true ->
    server_process (snd (stop_server timeout w)) = None.
Proof.
  intros w timeout H. now apply stop_server_clears_handle.
Qed.

Lemma C6_witness :
  server_process
    (snd (stop_server 30 (world_with (Some stubborn_child) [] true None)))
  = None.
Proof.
  apply (C6_stop_clears_handle
           (world_with (Some stubborn_child) [] true None) 30).
  reflexivity.
Defined.

(** ** Running a computation step by step *)

Section Steps.

Lemma bind_gets (A B : Type) (f : world -> A) (k : A -> M B) (w : world) :
  bind (gets f) k w = k (f w) w.
Proof. reflexivity. Qed.

Lemma bind_returns (A B : Type) (m : M A) (k : A -> M B)
      (w w' : world) (a : A) :
  m w = (Ret a, w') -> bind m k w = k a w'.
Proof. intros H. unfold bind. now rewrite H. Qed.

Lemma bind_raises (A B : Type) (m : M A) (k : A -> M B)
      (w w' : world) (e : exn) :
  m w = (Raise e, w') -> bind m k w = (Raise e, w').
Proof. intros H. unfold bind. now rewrite H. Qed.

Lemma bind_log (B : Type) (l : level) (msg : string) (k : unit -> M B)
      (w : world) :
  bind (log l msg) k w = k tt (add_log (l, msg) w).
Proof. reflexivity. Qed.

Lemma running_add_log (r : logrec) (w : world) :
  is_server_running (add_log r w) = is_server_running w.
Proof. reflexivity. Qed.

(** With no handle, [server_process.wait] is an attribute access on
    [None]. *)
Lemma proc_wait_no_handle (t : Z) (w : world) :
  server_process w = None -> proc_wait t w = (Raise AttributeError, w).
Proof.
  intros H. unfold proc_wait, with_process.
  rewrite bind_gets, H. reflexivity.
Qed.

(** The stop-and-wait of [launch_server]: once [stop_server] has cleared
    the handle, the wait on it raises, and [except TimeoutExpired] does
    not catch that. *)
Lemma launch_server_running_raises (w : world) :
  is_server_running w = true ->
  exists e w',
    launch_server w = (Raise e, w')
    /\ (e = AttributeError \/ isinstance_Exception e = false).
Proof.
  intros H. unfold launch_server.
  rewrite bind_gets, H.
  set (r := (INFO,
             "Server is already running. Attempting to stop it first..."%string)).
  assert (Hrun : is_server_running (add_log r w) = true) by exact H.
  pose proof (stop_server_clears_handle (add_log r w) 30 Hrun) as Hclr.
  pose proof (@contained_stop_server 30 (add_log r w)) as Hcont.
  destruct (stop_server 30 (add_log r w)) as [[u | e] w1] eqn:Estop;
    simpl in Hclr, Hcont.
  - exists AttributeError, w1. split; [| now left].
    apply bind_raises. rewrite bind_log. fold r.
    erewrite bind_returns by exact Estop.
    unfold try_except. now rewrite proc_wait_no_handle.
  - exists e, w1. split; [| right; now apply Hcont].
    apply bind_raises. rewrite bind_log. fold r.
    now apply bind_raises.
Qed.

End Steps.

(** C1.  With a live child, [launch_server] stops it, and the wait that
    follows is made on the handle that [stop_server] has just cleared: an
    [AttributeError] leaves [launch_server], the warning of the timeout
    path is never reached, and no new child is started. *)
Theorem C1_launch_while_running_raises :
  is_server_running running_world = true
  /\ fst (launch_server running_world) = Raise AttributeError
  /\ server_process (snd (launch_server running_world)) = None
  /\ logged (snd (launch_server running_world))
     = [ (INFO, "Server is already running. Attempting to stop it first..."%string);
         (INFO, "Minecraft server stopped gracefully."%string) ].
Proof. repeat split. Qed.

(** ** Delete *)

Section Delete.

Lemma delete_server_nothing_to_do (w : world) :
  is_server_running w = false ->
  isdir_SERVER_DIR w = false ->
  delete_server w = (Ret true, w).
Proof.
  intros Hrun Hdir. unfold delete_server.
  rewrite bind_gets, Hrun.
  unfold bind at 1. cbn [ret].
  unfold try_except. rewrite bind_gets, Hdir. reflexivity.
Qed.

(** What [delete_server] does once the server is stopped. *)
Lemma remove_directory_false (w w' : world) (k : M bool) :
  try_except
    (isd <- gets isdir_SERVER_DIR ;;
     (if isd then
        r <- gets rmtree_raises ;;
        from_raises r ;;
        modify remove_tree ;;
        log INFO "Deleted server directory: {SERVER_DIR}"
      else ret tt) ;;
     ret true)
    isinstance_OSError
    (fun _ => k) w = (Ret false, w') ->
  isdir_SERVER_DIR w = true
  /\ exists e, rmtree_raises w = Some e /\ isinstance_OSError e = true.
Proof.
  unfold try_except, bind, gets.
  destruct (isdir_SERVER_DIR w); [| discriminate].
  destruct (rmtree_raises w) as [e |]; [| discriminate].
  cbn. destruct (isinstance_OSError e) eqn:E; [| discriminate].
  intros _. split; [reflexivity |]. now exists e.
Qed.

Lemma delete_server_false (w w' : world) :
  delete_server w = (Ret false, w') ->
  isdir_SERVER_DIR w = true
  /\ exists e, rmtree_raises w = Some e /\ isinstance_OSError e = true.
Proof.
  unfold delete_server. rewrite bind_gets.
  destruct (is_server_running w).
  - pose proof (@keeps_stop_server
                  (fun x => isdir_SERVER_DIR x = isdir_SERVER_DIR w
                            /\ rmtree_raises x = rmtree_raises w)
                  (fun _ _ H => H) (fun _ _ H => H) 30 w (conj eq_refl eq_refl))
      as [Hd Hr].
    unfold bind at 1.
    destruct (stop_server 30 w) as [[u | e] w1]; [| discriminate].
    simpl in Hd, Hr. intros H.
    apply remove_directory_false in H. now rewrite Hd, Hr in H.
  - unfold bind at 1. cbn [ret]. apply remove_directory_false.
Qed.

End Delete.

(** C10.  With no process running and no working directory,
    [delete_server] removes nothing (the world is left as it was) and
    returns [True]; and it returns [False] only when the directory exists
    and [shutil.rmtree] raises an [OSError]. *)
Theorem C10_delete_without_directory :
  (forall w : world,
      is_server_running w = false ->
      isdir_SERVER_DIR w = false ->
      delete_server w = (Ret true, w))
  /\ (forall w w' : world,
         delete_server w = (Ret false, w') ->
         isdir_SERVER_DIR w = true
         /\ exists e, rmtree_raises w = Some e /\ isinstance_OSError e = true).
Proof.
  split.
  - exact delete_server_nothing_to_do.
  - exact delete_server_false.
Qed.

Lemma C10_witness :
  delete_server (world_with None stale_buffer false None)
  = (Ret true, world_with None stale_buffer false None)
  /\ (isdir_SERVER_DIR locked_world = true
      /\ exists e,
          rmtree_raises locked_world = Some e /\ isinstance_OSError e = true).
Proof.
  split.
  - apply (proj1 C10_delete_without_directory
                 (world_with None stale_buffer false None));
      reflexivity.
  - apply (proj2 C10_delete_without_directory locked_world
                 (add_log (ERROR,
                           "Failed to delete server directory '{SERVER_DIR}': {e}"%string)
                          locked_world)).
    reflexivity.
Defined.

(** ** The RAM record *)

Section Ram.

Variable w : world.

Lemma read_ram_absent :
  ram_txt w = None -> read_ram w = (Ret 2%Z, w).
Proof. intros H. unfold read_ram. rewrite bind_gets, H. reflexivity. Qed.

Lemma read_ram_valid (s : text) (n : Z) :
  ram_txt w = Some (inr s) ->
  int_of_str (int_max_str_digits w) (strip s) = Some n ->
  (1 <= n)%Z ->
  read_ram w = (Ret n, w).
Proof.
  intros Hf Hint Hn. unfold read_ram. rewrite bind_gets, Hf.
  unfold try_except, bind, gets, ret. rewrite Hint.
  destruct (Z.leb_spec 1 n); [reflexivity | lia].
Qed.

Lemma read_ram_too_small (s : text) (n : Z) :
  ram_txt w = Some (inr s) ->
  int_of_str (int_max_str_digits w) (strip s) = Some n ->
  (n < 1)%Z ->
  read_ram w
  = (Ret 2%Z,
     add_log (WARNING,
              "Invalid RAM value in {ram_file}; defaulting to 2 GB."%string) w).
Proof.
  intros Hf Hint Hn. unfold read_ram. rewrite bind_gets, Hf.
  unfold try_except, bind, gets, ret. rewrite Hint.
  destruct (Z.leb_spec 1 n); [lia | reflexivity].
Qed.

Lemma read_ram_not_integer (s : text) :
  ram_txt w = Some (inr s) ->
  int_of_str (int_max_str_digits w) (strip s) = None ->
  read_ram w
  = (Ret 2%Z,
     add_log (WARNING,
              "Non-integer RAM value in {ram_file}; defaulting to 2 GB."%string)
             w).
Proof.
  intros Hf Hint. unfold read_ram. rewrite bind_gets, Hf.
  unfold try_except, bind, gets, ret. rewrite Hint. reflexivity.
Qed.

(** From the RAM setting to the spawned child. *)
Lemma launch_server_returns (n : Z) (w1 : world) :
  is_server_running w = false ->
  read_ram w = (Ret n, w1) ->
  popen_raises w1 = None ->
  launch_server w
  = (Ret tt,
     add_log (INFO, "Launched Minecraft server with {ram} GB RAM."%string)
       (set_server_process
          (Some (mkPopen (java_command n) (poll_result (child w1))
                         (stdin_data (child w1)) (write_raises (child w1))
                         (flush_raises (child w1)) (wait_script (child w1))
                         (kill_raises (child w1))))
          (set_server_output [] w1))).
Proof.
  intros Hrun Hram Hp. unfold launch_server.
  rewrite bind_gets, Hrun.
  unfold bind at 1. cbn [ret].
  erewrite bind_returns by exact Hram.
  unfold try_except, popen, bind, gets, modify, from_raises.
  cbn. rewrite Hp. reflexivity.
Qed.

Lemma launch_server_spawns (n : Z) (w1 : world) :
  is_server_running w = false ->
  read_ram w = (Ret n, w1) ->
  popen_raises w1 = None ->
  launched_args w = Some (java_command n)
  /\ logged (snd (launch_server w))
     = logged w1 ++ [(INFO, "Launched Minecraft server with {ram} GB RAM."%string)].
Proof.
  intros Hrun Hram Hp. unfold launched_args.
  rewrite (launch_server_returns n w1 Hrun Hram Hp).
  split; reflexivity.
Qed.

End Ram.

(** C9.  On a launch that reaches the spawn (no process running at entry,
    the spawn itself succeeding), the RAM record decides the heap flags:
    a record that parses as an integer [n >= 1] gives [-Xmx<n>G] and
    [-Xms<n>G]; an absent record gives 2 GB; a record that is not an
    integer, or an integer below 1, gives 2 GB and a logged warning. *)
Theorem C9_ram_record_decides_heap_flags :
  forall w : world,
    is_server_running w = false ->
    popen_raises w = None ->
    (forall s n,
        ram_txt w = Some (inr s) ->
        int_of_str (int_max_str_digits w) (strip s) = Some n ->
        (1 <= n)%Z ->
        launched_args w
        = Some ([lit "java"] ++ heap_flags n
                ++ [lit "-jar"; lit "server.jar"; lit "nogui"]))
    /\ (ram_txt w = None ->
        launched_args w
        = Some ([lit "java"] ++ heap_flags 2
                ++ [lit "-jar"; lit "server.jar"; lit "nogui"]))
    /\ (forall s,
           ram_txt w = Some (inr s) ->
           int_of_str (int_max_str_digits w) (strip s) = None ->
           launched_args w
           = Some ([lit "java"] ++ heap_flags 2
                   ++ [lit "-jar"; lit "server.jar"; lit "nogui"])
           /\ warned "Non-integer RAM value in {ram_file}; defaulting to 2 GB." w)
    /\ (forall s n,
           ram_txt w = Some (inr s) ->
           int_of_str (int_max_str_digits w) (strip s) = Some n ->
           (n < 1)%Z ->
           launched_args w
           = Some ([lit "java"] ++ heap_flags 2
                   ++ [lit "-jar"; lit "server.jar"; lit "nogui"])
           /\ warned "Invalid RAM value in {ram_file}; defaulting to 2 GB." w).
Proof.
  intros w Hrun Hp. repeat split.
  - intros s n Hf Hint Hn.
    apply (launch_server_spawns w n w Hrun (read_ram_valid w s n Hf Hint Hn) Hp).
  - intros Hf.
    apply (launch_server_spawns w 2%Z w Hrun (read_ram_absent w Hf) Hp).
  - apply (launch_server_spawns w 2%Z _ Hrun (read_ram_not_integer w s H H0) Hp).
  - unfold warned.
    rewrite (proj2 (launch_server_spawns w 2%Z _ Hrun (read_ram_not_integer w s H H0) Hp)).
    simpl. apply in_or_app. left. apply in_or_app. right. now left.
  - apply (launch_server_spawns w 2%Z _ Hrun (read_ram_too_small w s n H H0 H1) Hp).
  - unfold warned.
    rewrite (proj2 (launch_server_spawns w 2%Z _ Hrun (read_ram_too_small w s n H H0 H1) Hp)).
    simpl. apply in_or_app. left. apply in_or_app. right. now left.
Qed.

Lemma C9_witness :
  launched_args (ram_world (Some (inr (lit "8")))) = java_with "-Xmx8G" "-Xms8G"
  /\ launched_args (ram_world None) = java_with "-Xmx2G" "-Xms2G"
  /\ (launched_args (ram_world (Some (inr (lit "abc"))))
      = java_with "-Xmx2G" "-Xms2G"
      /\ warned "Non-integer RAM value in {ram_file}; defaulting to 2 GB."
                (ram_world (Some (inr (lit "abc")))))
  /\ (launched_args (ram_world (Some (inr (lit "0"))))
      = java_with "-Xmx2G" "-Xms2G"
      /\ warned "Invalid RAM value in {ram_file}; defaulting to 2 GB."
                (ram_world (Some (inr (lit "0"))))).
Proof.
  split; [| split; [| split]].
  - apply (proj1 (C9_ram_record_decides_heap_flags
                    (ram_world (Some (inr (lit "8")))) eq_refl eq_refl)
                 (lit "8") 8%Z); [reflexivity | reflexivity | lia].
  - apply (proj1 (proj2 (C9_ram_record_decides_heap_flags
                           (ram_world None) eq_refl eq_refl))).
    reflexivity.
  - apply (proj1 (proj2 (proj2 (C9_ram_record_decides_heap_flags
                                  (ram_world (Some (inr (lit "abc"))))
                                  eq_refl eq_refl)))
                 (lit "abc")); reflexivity.
  - apply (proj2 (proj2 (proj2 (C9_ram_record_decides_heap_flags
                                  (ram_world (Some (inr (lit "0"))))
                                  eq_refl eq_refl)))
                 (lit "0") 0%Z); [reflexivity | reflexivity | lia].
Defined.

(** ** Searching a text that is cut at separators *)

Section Separators.

(** A pattern, searched in the lower-cased text, none of whose
    characters is the lower case of a separator. *)
Variable pat : text.
Hypothesis pat_not_empty : pat <> [].

Local Abbreviation found := (has pat).

Lemma has_nil : found [] = false.
Proof. unfold has. destruct pat; [contradiction | reflexivity]. Qed.

Variable sep : ascii -> bool.
Hypothesis pat_no_sep :
  forall c, sep c = true -> ~ In (lower_char c) pat.

Lemma startswith_stops (p x y : text) (c : ascii) :
  ~ In c p -> startswith p (x ++ c :: y) = startswith p x.
Proof.
  revert x. induction p as [| a p IH]; intros x Hc; [reflexivity |].
  destruct x as [| b x]; simpl.
  - destruct (Ascii.eqb_spec a c) as [E | _]; [| reflexivity].
    exfalso. apply Hc. now left.
  - rewrite IH; [reflexivity |].
    intros Hin. apply Hc. now right.
Qed.

Lemma contains_app_sep (p x y : text) (c : ascii) :
  ~ In c p ->
  contains p (x ++ c :: y) = contains p x || contains p y.
Proof.
  intros Hc. induction x as [| a x IH].
  - pose proof (startswith_stops p [] y c Hc) as E.
    change ([] ++ c :: y) with (c :: y) in *.
    cbn [contains]. rewrite E.
    now rewrite orb_false_r.
  - change ((a :: x) ++ c :: y) with (a :: (x ++ c :: y)).
    cbn [contains].
    change (a :: (x ++ c :: y)) with ((a :: x) ++ c :: y).
    rewrite (startswith_stops p (a :: x) y c Hc), IH.
    now rewrite !orb_assoc.
Qed.

Lemma has_app_sep (x y : text) (c : ascii) :
  sep c = true -> found (x ++ c :: y) = found x || found y.
Proof.
  intros Hc. unfold has, lower. rewrite map_app. simpl.
  apply contains_app_sep. now apply pat_no_sep.
Qed.

Lemma has_cons_sep (y : text) (c : ascii) :
  sep c = true -> found (c :: y) = found y.
Proof.
  intros Hc. change (c :: y) with ([] ++ c :: y).
  rewrite (has_app_sep [] y c Hc). now rewrite has_nil.
Qed.

Lemma existsb_has_rev (ls : list text) :
  existsb found (rev ls) = existsb found ls.
Proof.
  induction ls as [| l ls IH]; [reflexivity |].
  simpl. rewrite existsb_app, IH. simpl.
  rewrite orb_false_r. apply orb_comm.
Qed.

(** The pattern is in the joined text exactly when it is in one of the
    parts. *)
Lemma has_join (c : ascii) (ls : list text) :
  sep c = true -> found (join [c] ls) = existsb found ls.
Proof.
  intros Hc. induction ls as [| l ls IH].
  - apply has_nil.
  - destruct ls as [| l' ls].
    + simpl. now rewrite orb_false_r.
    + change (join [c] (l :: l' :: ls))
        with (l ++ c :: join [c] (l' :: ls)).
      rewrite has_app_sep by assumption. rewrite IH. reflexivity.
Qed.

End Separators.

Section SplitLines.

Variable pat : text.
Hypothesis pat_not_empty : pat <> [].
Hypothesis pat_no_linebreak :
  forall c, is_linebreak c = true -> ~ In (lower_char c) pat.

Local Abbreviation found := (has pat).

Lemma found_cut (x y : text) (c : ascii) :
  is_linebreak c = true -> found (x ++ c :: y) = found x || found y.
Proof. apply has_app_sep. exact pat_no_linebreak. Qed.

Lemma found_skip (y : text) (c : ascii) :
  is_linebreak c = true -> found (c :: y) = found y.
Proof.
  apply has_cons_sep; [exact pat_not_empty | exact pat_no_linebreak].
Qed.

Lemma splitlines_from_found (n : nat) :
  forall s cur,
    List.length s <= n ->
    existsb found (splitlines_from cur s) = found (rev cur ++ s).
Proof.
  induction n as [| n IH]; intros s cur Hlen.
  - destruct s; [| simpl in Hlen; lia].
    rewrite app_nil_r. destruct cur as [| c cur].
    + simpl. symmetry. apply has_nil. exact pat_not_empty.
    + cbn [splitlines_from existsb]. now rewrite orb_false_r.
  - destruct s as [| c s'].
    + rewrite app_nil_r. destruct cur as [| c cur].
      * simpl. symmetry. apply has_nil. exact pat_not_empty.
      * cbn [splitlines_from existsb]. now rewrite orb_false_r.
    + simpl in Hlen. cbn [splitlines_from].
      destruct (is_linebreak c) eqn:Hc.
      * rewrite found_cut by assumption. cbn [existsb]. f_equal.
        destruct s' as [| d s''].
        -- apply (IH [] []). simpl. lia.
        -- destruct (Ascii.eqb c CR && Ascii.eqb d LF) eqn:Hcrlf.
           ++ apply andb_true_iff in Hcrlf as [_ Hd].
              apply Ascii.eqb_eq in Hd. subst d.
              rewrite found_skip by reflexivity.
              apply (IH s'' []). simpl in Hlen. lia.
           ++ apply (IH (d :: s'') []). lia.
      * rewrite IH by lia. simpl. now rewrite <- app_assoc.
Qed.

Lemma splitlines_found (s : text) :
  existsb found (splitlines s) = found s.
Proof. apply (splitlines_from_found (List.length s) s []). lia. Qed.

(** Joining the buffer with newlines and splitting the result into
    lines again neither loses nor invents a line with the pattern. *)
Lemma splitlines_join_found (ls : list text) :
  existsb found (rev (splitlines (join [LF] ls))) = existsb found ls.
Proof.
  rewrite existsb_has_rev, splitlines_found.
  exact (has_join pat pat_not_empty is_linebreak pat_no_linebreak LF ls
                  eq_refl).
Qed.

End SplitLines.

(** ** The readiness projection *)

Section Readiness.

Lemma done_not_empty : lit "done (" <> [].
Proof. discriminate. Qed.

(** No line boundary lower-cases to a character of ["done ("]. *)
Lemma done_no_linebreak (c : ascii) :
  is_linebreak c = true -> ~ In (lower_char c) (lit "done (").
Proof.
  destruct c as [[] [] [] [] [] [] [] []]; vm_compute; intros H;
    try discriminate H; intuition discriminate.
Qed.

(** The lines that [get_server_state] scans carry the marker exactly
    when a line of the buffer does. *)
Lemma scanned_logs_done (w : world) :
  existsb has_done (rev (splitlines (get_logs w)))
  = existsb has_done (server_output w).
Proof.
  unfold get_logs. destruct (server_output w) as [| l ls] eqn:E.
  - reflexivity.
  - apply (splitlines_join_found (lit "done (") done_not_empty
                                 done_no_linebreak (l :: ls)).
Qed.

Lemma get_server_state_cases (w : world) :
  get_server_state w
  = if server_exists w && is_server_running w
    then if existsb has_done (server_output w)
         then lit "online" else lit "booting"
    else lit "offline".
Proof.
  unfold get_server_state. rewrite scanned_logs_done.
  destruct (server_exists w), (is_server_running w); reflexivity.
Qed.

End Readiness.

(** C5 as stated fails: a live process with a "Done (" line in the buffer
    is still "offline" when the working directory does not exist. *)
Lemma C5_counterexample :
  ~ (get_server_state (world_with (Some quiet_child) stale_buffer false None)
     = lit "online"
     <-> is_server_running
           (world_with (Some quiet_child) stale_buffer false None) = true
         /\ exists line,
             In line (server_output
                        (world_with (Some quiet_child) stale_buffer false None))
             /\ contains (lit "done (") (lower line) = true).
Proof.
  intros [_ H].
  assert (E : get_server_state
                (world_with (Some quiet_child) stale_buffer false None)
              = lit "online").
  { apply H. split; [reflexivity |].
    exists (lit "[Server] Done (12.3s)!"). split; [| reflexivity].
    right. now left. }
  vm_compute in E. discriminate E.
Qed.

(** C5, amended.  The readiness state is "online" if and only if the
    working directory exists, the process is alive and some buffered line
    contains "done (" without regard to case; with the directory and a
    live process but no such line the state is "booting". *)
Theorem C5_online_iff_directory_alive_and_done :
  forall w : world,
    (get_server_state w = lit "online"
     <-> server_exists w = true
         /\ is_server_running w = true
         /\ exists line,
             In line (server_output w)
             /\ contains (lit "done (") (lower line) = true)
    /\ (server_exists w = true ->
        is_server_running w = true ->
        (forall line,
            In line (server_output w) ->
            contains (lit "done (") (lower line) = false) ->
        get_server_state w = lit "booting").
Proof.
  intros w. rewrite get_server_state_cases. split; [split |].
  - destruct (server_exists w), (is_server_running w); simpl;
      try discriminate.
    destruct (existsb has_done (server_output w)) eqn:E; [| discriminate].
    intros _. apply existsb_exists in E. now repeat split.
  - intros [Hd [Hr Hl]]. rewrite Hd, Hr. simpl.
    apply existsb_exists in Hl. unfold has_done. unfold has_done in Hl.
    now rewrite Hl.
  - intros Hd Hr Hl. rewrite Hd, Hr. simpl.
    destruct (existsb has_done (server_output w)) eqn:E; [| reflexivity].
    apply existsb_exists in E as [line [Hin Hdone]].
    unfold has_done in Hdone. rewrite (Hl line Hin) in Hdone. discriminate.
Qed.

Lemma C5_witness :
  get_server_state (world_with (Some quiet_child) booting_buffer true None)
  = lit "booting"
  /\ get_server_state
       (world_with (Some quiet_child)
                   (booting_buffer ++ [lit "[Server] Done (12.3s)!"]) true None)
     = lit "online".
Proof.
  split.
  - apply (proj2 (C5_online_iff_directory_alive_and_done
                    (world_with (Some quiet_child) booting_buffer true None)));
      [reflexivity | reflexivity |].
    intros line [H | [H | []]]; subst line; reflexivity.
  - apply (proj1 (C5_online_iff_directory_alive_and_done
                    (world_with (Some quiet_child)
                                (booting_buffer ++ [lit "[Server] Done (12.3s)!"])
                                true None))).
    split; [reflexivity | split; [reflexivity |]].
    exists (lit "[Server] Done (12.3s)!"). split; [| reflexivity].
    right. right. now left.
Defined.

(** ** What the patterns match *)

Section Parsers.

Lemma sound_weaken (p : parser text) (L L' : text -> Prop) :
  sound p L -> (forall m, L m -> L' m) -> sound p L'.
Proof.
  intros Hp HL s m r Hin. destruct (Hp s m r Hin) as [Hs Hm].
  split; [exact Hs | now apply HL].
Qed.

Lemma in_p_bind (A B : Type) (p : parser A) (f : A -> parser B)
      (s : text) (x : B * text) :
  In x (p_bind p f s) <-> exists a r, In (a, r) (p s) /\ In x (f a r).
Proof.
  unfold p_bind. rewrite in_flat_map. split.
  - intros [[a r] [H1 H2]]. now exists a, r.
  - intros [a [r [H1 H2]]]. now exists (a, r).
Qed.

Lemma in_p_seq (p q : parser text) (s m r : text) :
  In (m, r) (p_seq p q s)
  <-> exists m1 m2 r1,
      In (m1, r1) (p s) /\ In (m2, r) (q r1) /\ m = m1 ++ m2.
Proof.
  unfold p_seq. rewrite in_p_bind. split.
  - intros [m1 [r1 [H1 H2]]]. apply in_p_bind in H2.
    destruct H2 as [m2 [r2 [H2 H3]]]. destruct H3 as [H3 | []].
    inversion H3; subst. now exists m1, m2, r1.
  - intros [m1 [m2 [r1 [H1 [H2 H3]]]]]. exists m1, r1. split; [exact H1 |].
    apply in_p_bind. exists m2, r. split; [exact H2 |].
    left. now subst.
Qed.

Lemma sound_seq (p q : parser text) (L1 L2 : text -> Prop) :
  sound p L1 -> sound q L2 ->
  sound (p_seq p q)
        (fun m => exists m1 m2, m = m1 ++ m2 /\ L1 m1 /\ L2 m2).
Proof.
  intros Hp Hq s m r Hin. apply in_p_seq in Hin.
  destruct Hin as [m1 [m2 [r1 [H1 [H2 H3]]]]].
  destruct (Hp _ _ _ H1) as [Hs1 Hm1].
  destruct (Hq _ _ _ H2) as [Hs2 Hm2].
  subst. split; [now rewrite app_assoc |].
  now exists m1, m2.
Qed.

Lemma sound_char_ci (a : ascii) :
  sound (p_char_ci a)
        (fun m => exists c, m = [c] /\ lower_char c = lower_char a).
Proof.
  intros s m r Hin. unfold p_char_ci in Hin.
  destruct s as [| c s']; [contradiction |].
  destruct (Ascii.eqb_spec (lower_char c) (lower_char a)) as [E | _];
    [| contradiction].
  destruct Hin as [Hin | []]. inversion Hin; subst.
  split; [reflexivity | now exists c].
Qed.

Lemma sound_lit_ci (l : text) :
  sound (p_lit_ci l) (fun m => lower m = lower l).
Proof.
  induction l as [| a l IH].
  - intros s m r [Hin | []]. inversion Hin; subst. now split.
  - cbn [p_lit_ci].
    eapply sound_weaken;
      [apply sound_seq; [apply sound_char_ci | exact IH] |].
    intros m [m1 [m2 [Hm [[c [Hc Hlow]] Hm2]]]]. subst.
    simpl. now rewrite Hlow, Hm2.
Qed.

Lemma sound_opt (p : parser text) (L : text -> Prop) :
  sound p L -> sound (p_opt p) (fun m => m = [] \/ L m).
Proof.
  intros Hp s m r Hin. unfold p_opt in Hin.
  apply in_app_or in Hin as [Hin | [Hin | []]].
  - destruct (Hp _ _ _ Hin) as [Hs Hm]. split; [exact Hs | now right].
  - inversion Hin; subst. split; [reflexivity | now left].
Qed.

Lemma sound_plus (cls : ascii -> bool) :
  sound (p_plus cls) (fun m => m <> [] /\ forallb cls m = true).
Proof.
  intros s. induction s as [| c s IH]; intros m r Hin; [contradiction |].
  cbn [p_plus] in Hin. destruct (cls c) eqn:Hc; [| contradiction].
  apply in_app_or in Hin as [Hin | [Hin | []]].
  - apply in_map_iff in Hin as [[m' r'] [Heq Hin]].
    inversion Heq; subst. simpl.
    destruct (IH _ _ Hin) as [Hs [_ Hall]].
    split; [now f_equal |]. split; [discriminate |].
    simpl. now rewrite Hc.
  - inversion Hin; subst. split; [reflexivity |].
    split; [discriminate |]. simpl. now rewrite Hc.
Qed.

(** Completeness, as far as needed: the literal itself and every run of
    class characters are found. *)
Lemma lit_ci_matches_itself (l r : text) : In (l, r) (p_lit_ci l (l ++ r)).
Proof.
  induction l as [| a l IH]; [now left |].
  cbn [p_lit_ci]. apply in_p_seq. exists [a], l, (l ++ r).
  split; [| split; [exact IH | reflexivity]].
  simpl. rewrite Ascii.eqb_refl. now left.
Qed.

Lemma plus_matches_run (cls : ascii -> bool) (m r : text) :
  m <> [] -> forallb cls m = true -> In (m, r) (p_plus cls (m ++ r)).
Proof.
  induction m as [| c m IH]; intros Hne Hall; [contradiction |].
  simpl in Hall. apply andb_true_iff in Hall as [Hc Hall].
  simpl. rewrite Hc. apply in_or_app.
  destruct m as [| c' m'].
  - right. now left.
  - left. apply in_map_iff. exists (c' :: m', r). split; [reflexivity |].
    apply IH; [discriminate | exact Hall].
Qed.

Lemma search_here (A : Type) (p : parser A) (s : text) (a : A) (r : text)
      (rest : list (A * text)) :
  p s = (a, r) :: rest -> search p s = Some a.
Proof. intros H. destruct s; cbn [search]; now rewrite H. Qed.

Lemma search_skip (A : Type) (p : parser A) (c : ascii) (s : text) :
  p (c :: s) = [] -> search p (c :: s) = search p s.
Proof. intros H. cbn [search]. now rewrite H. Qed.

(** [re.search] when every success up to a start position carries the
    same result and the position itself has a success. *)
Lemma search_first (A : Type) (p : parser A) (pre t : text) (d : A) :
  (forall pre1 pre2 a r,
      pre = pre1 ++ pre2 -> In (a, r) (p (pre2 ++ t)) -> a = d) ->
  p t <> [] ->
  search p (pre ++ t) = Some d.
Proof.
  induction pre as [| c pre IH]; intros Hall Hne.
  - change ([] ++ t) with t.
    destruct (p t) as [| [a r] rest] eqn:E; [contradiction |].
    rewrite (search_here A p t a r rest E). f_equal.
    apply (Hall [] [] a r eq_refl).
    change ([] ++ t) with t. rewrite E. now left.
  - change ((c :: pre) ++ t) with (c :: (pre ++ t)).
    destruct (p (c :: pre ++ t)) as [| [a r] rest] eqn:E.
    + rewrite (search_skip A p c (pre ++ t) E).
      apply IH; [| exact Hne].
      intros pre1 pre2 a r Hpre Hin.
      apply (Hall (c :: pre1) pre2 a r); [now rewrite Hpre | exact Hin].
    + rewrite (search_here A p (c :: pre ++ t) a r rest E). f_equal.
      apply (Hall [] (c :: pre) a r eq_refl).
      change ((c :: pre) ++ t) with (c :: pre ++ t). rewrite E. now left.
Qed.

End Parsers.

(** ** The join domain of a ready line *)

Section Lists.

Variable P : ascii -> bool.

Lemma head_is_app (s x : text) :
  s <> [] -> head_is P (s ++ x) = head_is P s.
Proof. destruct s; [contradiction | reflexivity]. Qed.

(** A run of [P] characters that stops at a character outside [P], or
    at the end, is determined by the text. *)
Lemma span_unique (a : text) :
  forall b x y,
    a ++ x = b ++ y ->
    forallb P a = true -> forallb P b = true ->
    head_is P x = false -> head_is P y = false ->
    a = b /\ x = y.
Proof.
  induction a as [| c a IH]; intros b x y Heq Ha Hb Hx Hy.
  - destruct b as [| d b]; [now split |].
    simpl in Heq. subst x. simpl in Hx, Hb.
    apply andb_true_iff in Hb as [Hd _]. congruence.
  - destruct b as [| d b].
    + simpl in Heq. subst y. simpl in Hy, Ha.
      apply andb_true_iff in Ha as [Hc _]. congruence.
    + simpl in Heq. inversion Heq; subst.
      simpl in Ha, Hb.
      apply andb_true_iff in Ha as [_ Ha].
      apply andb_true_iff in Hb as [_ Hb].
      destruct (IH b x y H1 Ha Hb Hx Hy) as [E1 E2].
      split; [now f_equal | exact E2].
Qed.

Lemma app_same_length (A : Type) (a : list A) :
  forall c b d,
    a ++ b = c ++ d -> List.length a = List.length c -> a = c /\ b = d.
Proof.
  induction a as [| x a IH]; intros [| y c] b d Heq Hlen;
    try discriminate Hlen.
  - now split.
  - simpl in Heq. inversion Heq; subst.
    destruct (IH c b d H1) as [E1 E2]; [simpl in Hlen; lia |].
    split; [now f_equal | exact E2].
Qed.

Lemma prefix_of_app (A : Type) (a : list A) :
  forall c b d,
    a ++ b = c ++ d -> List.length a <= List.length c ->
    exists t, c = a ++ t.
Proof.
  induction a as [| x a IH]; intros c b d Heq Hlen.
  - now exists c.
  - destruct c as [| y c]; [simpl in Hlen; lia |].
    simpl in Heq. inversion Heq; subst.
    destruct (IH c b d H1) as [t Ht]; [simpl in Hlen; lia |].
    exists t. simpl. now f_equal.
Qed.

Lemma startswith_app (p b : text) : startswith p (p ++ b) = true.
Proof.
  induction p as [| c p IH]; [reflexivity |].
  simpl. now rewrite Ascii.eqb_refl.
Qed.

Lemma contains_skip (p x s : text) :
  contains p s = true -> contains p (x ++ s) = true.
Proof.
  intros H. induction x as [| c x IH]; [exact H |].
  simpl. rewrite IH. apply orb_true_r.
Qed.

Lemma contains_middle (p a b : text) : contains p (a ++ p ++ b) = true.
Proof.
  apply contains_skip. destruct (p ++ b) eqn:E; simpl;
    rewrite <- E, startswith_app; reflexivity.
Qed.

End Lists.

Section JoinDomain.

Lemma sound_re_scheme :
  sound re_scheme
        (fun m => lower m = lit "http://" \/ lower m = lit "https://").
Proof.
  unfold re_scheme.
  eapply sound_weaken.
  - apply sound_seq; [apply sound_lit_ci |].
    apply sound_seq; [apply sound_opt, sound_char_ci | apply sound_lit_ci].
  - intros m [m1 [m2 [Hm [H1 [m3 [m4 [Hm2 [H3 H4]]]]]]]]. subst.
    unfold lower in *. rewrite !map_app, H1, H4.
    destruct H3 as [H3 | [c [H3 Hc]]]; subst; simpl.
    + now left.
    + right. now rewrite Hc.
Qed.

(** Every success of the domain pattern: an optional scheme, a run of
    label characters, and ".joinmc.link" in any case; the result is the
    run and the suffix. *)
Lemma in_re_joinmc (s d r : text) :
  In (d, r) (re_joinmc s) ->
  exists sch' run dl,
    s = sch' ++ run ++ dl ++ r
    /\ d = run ++ dl
    /\ scheme_like sch'
    /\ run <> []
    /\ forallb in_label run = true
    /\ lower dl = DOT_JOINMC_LINK.
Proof.
  unfold re_joinmc. intros Hin. apply in_p_bind in Hin.
  destruct Hin as [sch' [s1 [Hopt Hdom]]].
  apply (sound_opt _ _ sound_re_scheme) in Hopt. destruct Hopt as [Hs Hsch].
  unfold re_domain in Hdom.
  apply (sound_seq _ _ _ _ (sound_plus in_label)
                   (sound_lit_ci (lit ".joinmc.link"))) in Hdom.
  destruct Hdom as [Hs1 [run [dl [Hd [[Hne Hall] Hdl]]]]].
  exists sch', run, dl. subst. rewrite <- app_assoc.
  repeat split; assumption.
Qed.

Lemma in_label_lower (c : ascii) : in_label (lower_char c) = in_label c.
Proof. destruct c as [[] [] [] [] [] [] [] []]; reflexivity. Qed.

Lemma label_has_no_dot (run : text) :
  forallb in_label run = true -> ~ In "."%char run.
Proof.
  intros Hall Hin. rewrite forallb_forall in Hall.
  specialize (Hall _ Hin). discriminate Hall.
Qed.

Lemma lower_has_no_dot (m l : text) :
  lower m = l -> ~ In "."%char l -> ~ In "."%char m.
Proof.
  intros Hl Hno Hin. apply Hno. rewrite <- Hl.
  change "."%char with (lower_char "."). now apply in_map.
Qed.

Lemma scheme_has_no_dot (m : text) : scheme_like m -> ~ In "."%char m.
Proof.
  intros [H | [H | H]].
  - subst. intros [].
  - apply (lower_has_no_dot _ _ H). simpl. intuition discriminate.
  - apply (lower_has_no_dot _ _ H). simpl. intuition discriminate.
Qed.

Lemma lower_ends_outside_label (m l : text) :
  lower m = l -> head_is in_label (rev l) = false ->
  head_is in_label (rev m) = false.
Proof.
  intros Hl Hh. subst l. unfold lower in Hh. rewrite <- map_rev in Hh.
  destruct (rev m) as [| c t]; [reflexivity |].
  simpl in *. now rewrite in_label_lower in Hh.
Qed.

Lemma scheme_ends_outside_label (m : text) :
  scheme_like m -> head_is in_label (rev m) = false.
Proof.
  intros [H | [H | H]].
  - now subst.
  - now apply (lower_ends_outside_label _ _ H).
  - now apply (lower_ends_outside_label _ _ H).
Qed.

Variables sch label post : text.
Hypothesis sch_known : In sch schemes.
Hypothesis label_not_empty : label <> [].
Hypothesis label_chars : forallb in_label label = true.

Local Abbreviation tail := (sch ++ label ++ DOT_JOINMC_LINK ++ post).

(** In a text that runs into the domain, whatever the pattern matches
    is the domain. *)
Lemma domain_unique (pre2 sch' run dl r : text) :
  (sch = [] -> head_is in_label (rev pre2) = false) ->
  first_domain pre2 sch label ->
  pre2 ++ tail = sch' ++ run ++ dl ++ r ->
  scheme_like sch' ->
  run <> [] ->
  forallb in_label run = true ->
  lower dl = DOT_JOINMC_LINK ->
  run ++ dl = label ++ DOT_JOINMC_LINK.
Proof.
  intros Hpre Hfirst Heq Hsch' Hne Hall Hdl.
  set (X := sch' ++ run). set (Y := pre2 ++ sch ++ label).
  assert (HX : ~ In "."%char X).
  { unfold X. intros Hin. apply in_app_or in Hin as [Hin | Hin].
    - now apply (scheme_has_no_dot _ Hsch').
    - now apply (label_has_no_dot _ Hall). }
  assert (Heq' : X ++ (dl ++ r) = Y ++ (DOT_JOINMC_LINK ++ post)).
  { unfold X, Y in *. rewrite <- !app_assoc. symmetry. exact Heq. }
  assert (HXY : X = Y).
  { destruct (app_eq_app _ _ _ _ Heq') as [l [[H1 H2] | [H1 H2]]].
    - destruct l as [| c l]; [now rewrite app_nil_r in H1 |].
      exfalso. apply HX. rewrite H1.
      inversion H2; subst c. apply in_or_app. right. now left.
    - destruct l as [| c l]; [now rewrite app_nil_r in H1 |].
      exfalso. unfold first_domain in Hfirst.
      assert (Hlen : List.length dl
                     <= List.length ((c :: l) ++ lit ".joinmc.lin")).
      { apply (f_equal (@List.length ascii)) in Hdl.
        unfold lower in Hdl. rewrite length_map in Hdl. rewrite Hdl.
        rewrite length_app. simpl. lia. }
      assert (Hsplit : dl ++ r
                       = ((c :: l) ++ lit ".joinmc.lin") ++ "k"%char :: post).
      { rewrite H2. rewrite <- app_assoc. reflexivity. }
      destruct (prefix_of_app _ _ _ _ _ Hsplit Hlen) as [t Ht].
      assert (E : pre2 ++ sch ++ label ++ lit ".joinmc.lin"
                  = X ++ dl ++ t).
      { transitivity (Y ++ lit ".joinmc.lin").
        - unfold Y. now rewrite <- !app_assoc.
        - rewrite H1, <- Ht. now rewrite <- app_assoc. }
      rewrite E in Hfirst. unfold lower in Hfirst, Hdl.
      rewrite !map_app, Hdl in Hfirst.
      now rewrite contains_middle in Hfirst. }
  rewrite HXY in Heq'. apply app_inv_head in Heq'.
  assert (Hdl' : dl = DOT_JOINMC_LINK).
  { apply (app_same_length _ _ _ _ _ Heq').
    apply (f_equal (@List.length ascii)) in Hdl.
    unfold lower in Hdl. now rewrite length_map in Hdl. }
  assert (Hrun : rev run ++ rev sch' = rev label ++ rev (pre2 ++ sch)).
  { rewrite <- !rev_app_distr. f_equal. fold X. rewrite HXY.
    unfold Y. now rewrite app_assoc. }
  assert (Hend : head_is in_label (rev (pre2 ++ sch)) = false).
  { destruct sch_known as [E | [E | [E | []]]]; subst sch.
    - simpl. rewrite app_nil_r. now apply Hpre.
    - now rewrite rev_app_distr.
    - now rewrite rev_app_distr. }
  apply span_unique with (P := in_label) in Hrun.
  - destruct Hrun as [Hrun _]. apply (f_equal (@rev ascii)) in Hrun.
    rewrite !rev_involutive in Hrun. now rewrite Hrun, Hdl'.
  - rewrite forallb_forall in *. intros c Hc. apply Hall. now apply in_rev.
  - rewrite forallb_forall in *. intros c Hc. apply label_chars.
    now apply in_rev.
  - now apply scheme_ends_outside_label.
  - exact Hend.
Qed.

(** At the start of the scheme (of the label, when there is no scheme)
    the pattern matches. *)
Lemma domain_found :
  In (label ++ DOT_JOINMC_LINK, post) (re_joinmc tail).
Proof.
  unfold re_joinmc. apply in_p_bind.
  exists sch, (label ++ DOT_JOINMC_LINK ++ post). split.
  - destruct sch_known as [E | [E | [E | []]]]; subst sch.
    + unfold p_opt. apply in_or_app. right. now left.
    + unfold p_opt. apply in_or_app. left. now left.
    + unfold p_opt. apply in_or_app. left. now left.
  - unfold re_domain. apply in_p_seq.
    exists label, DOT_JOINMC_LINK, (DOT_JOINMC_LINK ++ post).
    split; [| split; [| reflexivity]].
    + now apply plus_matches_run.
    + apply lit_ci_matches_itself.
Qed.

(** [re.search] finds the domain, without the scheme. *)
Lemma search_re_joinmc (pre : text) :
  (sch = [] -> head_is in_label (rev pre) = false) ->
  first_domain pre sch label ->
  search re_joinmc (pre ++ tail) = Some (label ++ DOT_JOINMC_LINK).
Proof.
  intros Hpre Hfirst. apply search_first.
  - intros pre1 pre2 d r Hsplit Hin.
    apply in_re_joinmc in Hin.
    destruct Hin as [sch' [run [dl [Hs [Hd [Hsch' [Hne [Hall Hdl]]]]]]]].
    subst d. apply (domain_unique pre2 sch' run dl r); try assumption.
    + intros E. specialize (Hpre E). subst pre.
      rewrite rev_app_distr in Hpre.
      destruct pre2 as [| c pre2]; [reflexivity |].
      rewrite head_is_app in Hpre; [exact Hpre |].
      simpl. now destruct (rev pre2).
    + unfold first_domain in *. subst pre.
      destruct (contains DOT_JOINMC_LINK
                  (lower (pre2 ++ sch ++ label ++ lit ".joinmc.lin")))
               eqn:E; [| reflexivity].
      rewrite <- Hfirst. symmetry. rewrite <- app_assoc.
      unfold lower. rewrite map_app. now apply contains_skip.
  - intros E. pose proof domain_found as H. rewrite E in H. exact H.
Qed.

End JoinDomain.

(** ** The scan of [get_playit_status] *)

Section Scan.

Lemma last_n_window (A : Type) (n : nat) (x y : list A) :
  List.length y <= n ->
  last_n n (x ++ y) = last_n (n - List.length y) x ++ y.
Proof.
  intros H. unfold last_n.
  rewrite skipn_app, length_app.
  replace (List.length x + List.length y - n)
    with (List.length x - (n - List.length y)) by lia.
  replace (List.length x - (n - List.length y) - List.length x)
    with 0 by lia.
  reflexivity.
Qed.

Lemma scan_line_unmarked (l : text) (st : playit) :
  ready_marker l = false -> claim_marker l = false ->
  scan_line l st = (Continue, st).
Proof.
  unfold ready_marker, claim_marker, scan_line. intros Hr Hc.
  now rewrite Hr, Hc.
Qed.

Lemma scan_line_ready (l d : text) (st : playit) :
  ready_marker l = true -> search re_joinmc l = Some d ->
  scan_line l st = (Break, mkPlayit true (claim_url st) (Some d)).
Proof.
  unfold ready_marker, scan_line. intros Hr Hs. now rewrite Hr, Hs.
Qed.

(** A line without the ready marker never ends the scan, and leaves
    the ready flag and the domain as they are. *)
Lemma scan_line_not_ready (l : text) (st : playit) :
  ready_marker l = false ->
  exists st',
    scan_line l st = (Continue, st')
    /\ tunnel_ready st' = tunnel_ready st
    /\ joinmc_domain st' = joinmc_domain st.
Proof.
  unfold ready_marker, scan_line. intros Hr. rewrite Hr.
  destruct (contains (lit "claim visit") (lower l) && negb (tunnel_ready st));
    [destruct (search re_claim l) |]; eexists; repeat split.
Qed.

Lemma scan_unmarked (lines rest : list text) (st : playit) :
  (forall l, In l lines -> ready_marker l = false /\ claim_marker l = false) ->
  scan (lines ++ rest) st = scan rest st.
Proof.
  induction lines as [| l lines IH]; intros H; [reflexivity |].
  destruct (H l (or_introl eq_refl)) as [Hr Hc].
  simpl. rewrite (scan_line_unmarked l st Hr Hc).
  apply IH. intros l' Hin. apply H. now right.
Qed.

Lemma scan_not_ready (lines rest : list text) :
  forall st,
    (forall l, In l lines -> ready_marker l = false) ->
    exists st',
      scan (lines ++ rest) st = scan rest st'
      /\ tunnel_ready st' = tunnel_ready st
      /\ joinmc_domain st' = joinmc_domain st.
Proof.
  induction lines as [| l lines IH]; intros st H.
  - now exists st.
  - destruct (scan_line_not_ready l st (H l (or_introl eq_refl)))
      as [st1 [E [Ht Hj]]].
    destruct (IH st1) as [st2 [E2 [Ht2 Hj2]]].
    { intros l' Hin. apply H. now right. }
    exists st2. simpl. rewrite E. repeat split; congruence.
Qed.

(** Without a ready line in the buffer, the claim line that is scanned
    last, the oldest one, decides the claim URL. *)
Lemma oldest_claim_line_wins (w : world) (oldest : text)
      (newer : list text) (u : text) :
  server_output w = oldest :: newer ->
  List.length newer < MAX_LOG_LINES ->
  (forall l, In l (oldest :: newer) -> ready_marker l = false) ->
  claim_marker oldest = true ->
  search re_claim oldest = Some u ->
  get_playit_status w = mkPlayit false (Some u) None.
Proof.
  intros Hbuf Hlen Hnr Hc Hu. unfold get_playit_status.
  rewrite Hbuf, last_n_short by (simpl; lia).
  simpl rev.
  destruct (scan_not_ready (rev newer) [oldest] (mkPlayit false None None))
    as [st [E [Ht Hj]]].
  { intros l Hin. apply Hnr. right. now apply in_rev. }
  rewrite E. simpl in Ht, Hj. simpl.
  unfold scan_line. unfold ready_marker in Hnr.
  rewrite (Hnr oldest (or_introl eq_refl)).
  unfold claim_marker in Hc. rewrite Hc, Ht, Hu. simpl.
  now rewrite Hj.
Qed.

End Scan.

(** C7.  Let the buffer hold a line with the ready marker and a domain
    [label.joinmc.link], with a scheme or without, the first domain of
    the line; let no newer line carry either marker, and fewer than 300
    lines be newer.  Then the status is ready, without a claim URL, with
    the domain without its scheme, whatever the older lines are; the scan
    ends at that line whatever would follow it. *)
Theorem C7_ready_line_wins :
  forall (w : world) (older newer : list text) (pre sch label post : text),
    server_output w
    = older ++ (pre ++ sch ++ label ++ lit ".joinmc.link" ++ post) :: newer ->
    List.length newer < MAX_LOG_LINES ->
    (forall l, In l newer ->
               contains (lit "found minecraft java tunnel") (lower l) = false
               /\ contains (lit "claim visit") (lower l) = false) ->
    contains (lit "found minecraft java tunnel")
             (lower (pre ++ sch ++ label ++ lit ".joinmc.link" ++ post)) = true ->
    In sch schemes ->
    label <> [] ->
    forallb in_label label = true ->
    (sch = [] -> head_is in_label (rev pre) = false) ->
    first_domain pre sch label ->
    get_playit_status w
    = mkPlayit true None (Some (label ++ lit ".joinmc.link"))
    /\ forall rest,
        scan (rev newer
                  ++ (pre ++ sch ++ label ++ lit ".joinmc.link" ++ post) :: rest)
             (mkPlayit false None None)
        = mkPlayit true None (Some (label ++ lit ".joinmc.link")).
Proof.
  intros w older newer pre sch label post Hbuf Hlen Hnewer Hready
         Hsch Hne Hall Hpre Hfirst.
  assert (Hscan : forall rest,
             scan (rev newer
                       ++ (pre ++ sch ++ label ++ lit ".joinmc.link" ++ post)
                       :: rest)
                  (mkPlayit false None None)
             = mkPlayit true None (Some (label ++ lit ".joinmc.link"))).
  { intros rest. rewrite scan_unmarked.
    - simpl scan.
      rewrite (scan_line_ready _ (label ++ lit ".joinmc.link") _ Hready);
        [reflexivity |].
      now apply (search_re_joinmc sch label post Hsch Hne Hall pre).
    - intros l Hin. apply Hnewer. now apply in_rev. }
  split; [| exact Hscan].
  unfold get_playit_status. rewrite Hbuf.
  rewrite (last_n_window _ _ older (_ :: newer)) by (simpl; lia).
  rewrite rev_app_distr. simpl rev. rewrite <- !app_assoc. simpl app.
  apply Hscan.
Qed.

Lemma C7_witness :
  get_playit_status (world_with (Some quiet_child) tunnel_buffer true None)
  = mkPlayit true None (Some (lit "foo.joinmc.link")).
Proof.
  apply (C7_ready_line_wins
           (world_with (Some quiet_child) tunnel_buffer true None)
           [lit "[playit] failed to exchange, to claim visit: https://playit.gg/mc/AB12"]
           [lit "[Server] Done (12.3s)!"]
           (lit "[gg.playit] Found minecraft java tunnel: ")
           (lit "https://") (lit "foo") (lit "")).
  - reflexivity.
  - vm_compute. lia.
  - intros l [H | []]. subst l. split; reflexivity.
  - reflexivity.
  - right. right. now left.
  - discriminate.
  - reflexivity.
  - discriminate.
  - reflexivity.
Defined.

(** C2.  Two claim lines and no ready line: the scan goes from the newest
    line to the oldest and overwrites the claim URL at each claim line, so
    the URL returned is that of the oldest claim line, not of the most
    recent one. *)
Theorem C2_oldest_claim_url_returned :
  get_playit_status (world_with (Some quiet_child) two_claims_buffer true None)
  = mkPlayit false (Some (lit "https://playit.gg/mc/OLD111")) None
  /\ search re_claim
            (lit "[playit] failed to exchange, to claim visit: https://playit.gg/mc/NEW222")
     = Some (lit "https://playit.gg/mc/NEW222").
Proof. split; reflexivity. Qed.

(** ** The definitions at work *)

Example lower_Done : lower (lit "[Server] Done (12.3s)!") = lit "[server] done (12.3s)!".
Proof. reflexivity. Qed.

Example strip_both_ends :
  strip ([LF] ++ lit "  ab c " ++ [CR; LF]) = lit "ab c".
Proof. reflexivity. Qed.

Example splitlines_keeps_empty_lines :
  splitlines (lit "a" ++ [LF; LF] ++ lit "b" ++ [CR; LF] ++ lit "c" ++ [LF])
  = [lit "a"; lit ""; lit "b"; lit "c"].
Proof. reflexivity. Qed.

Example int_accepts_sign_and_underscore :
  int_of_str 4300 (lit " +1_0 ") = Some 10%Z
  /\ int_of_str 4300 (lit "-3") = Some (-3)%Z
  /\ int_of_str 4300 (lit "08") = Some 8%Z.
Proof. repeat split. Qed.

Example int_rejects :
  int_of_str 4300 (lit "1__0") = None
  /\ int_of_str 4300 (lit "8G") = None
  /\ int_of_str 4300 (lit "") = None
  /\ int_of_str 2 (lit "123") = None.
Proof. repeat split. Qed.

Example search_strips_scheme :
  search re_joinmc (lit "tunnel: https://Foo-1.joinmc.link ok")
  = Some (lit "Foo-1.joinmc.link").
Proof. reflexivity. Qed.

Example search_leftmost_label :
  search re_joinmc (lit "a.b.x_foo.JOINMC.link") = Some (lit "foo.JOINMC.link").
Proof. reflexivity. Qed.

Example search_claim_url :
  search re_claim (lit "to claim visit: HTTPS://playit.gg/mc/AB12.")
  = Some (lit "HTTPS://playit.gg/mc/AB12").
Proof. reflexivity. Qed.

Example search_needs_label : search re_joinmc (lit "http://.joinmc.link") = None.
Proof. reflexivity. Qed.

Example only_claim_line :
  get_playit_status
    (world_with (Some quiet_child)
                [lit "to claim visit: https://playit.gg/mc/AB12"] true None)
  = mkPlayit false (Some (lit "https://playit.gg/mc/AB12")) None.
Proof. reflexivity. Qed.

Example graceful_stop :
  stop_server 30 (world_with (Some quiet_child) [] true None)
  = (Ret tt,
     add_log (INFO, "Minecraft server stopped gracefully."%string)
             (world_with None [] true None)).
Proof. reflexivity. Qed.

Example stop_with_failing_kill :
  fst (stop_server 30 (world_with (Some stubborn_child) [] true None)) = Ret tt
  /\ logged (snd (stop_server 30 (world_with (Some stubborn_child) [] true None)))
     = [ (WARNING, "Graceful stop failed ({e}); killing process..."%string);
         (ERROR, "Error killing Minecraft process: {kill_err}"%string) ].
Proof. split; reflexivity. Qed.

Example stop_when_not_running :
  stop_server 30 (world_with None stale_buffer true None)
  = (Ret tt,
     add_log (INFO, "No server process is running."%string)
             (world_with None stale_buffer true None)).
Proof. reflexivity. Qed.

Example launch_clears_buffer :
  get_logs (snd (launch_server (ram_world (Some (inr (lit "8"))))))
  = lit "Server is starting or not running yet...".
Proof. reflexivity. Qed.

Example unreadable_ram_record_raises :
  fst (launch_server (ram_world (Some (inl PermissionError))))
  = Raise PermissionError.
Proof. reflexivity. Qed.

Example undecodable_ram_record_defaults :
  launched_args (ram_world (Some (inl UnicodeDecodeError)))
  = java_with "-Xmx2G" "-Xms2G".
Proof. reflexivity. Qed.

(** * Further properties of the supervisor *)

(** ** Inverting a computation *)

Section Inversion.

Lemma bind_ret_inv (A B : Type) (m : M A) (k : A -> M B)
      (w w' : world) (b : B) :
  bind m k w = (Ret b, w') ->
  exists a w1, m w = (Ret a, w1) /\ k a w1 = (Ret b, w').
Proof.
  unfold bind. destruct (m w) as [[a | e] w1]; [| discriminate].
  intros H. now exists a, w1.
Qed.

Lemma bind_raise_inv (A B : Type) (m : M A) (k : A -> M B)
      (w w' : world) (e : exn) :
  bind m k w = (Raise e, w') ->
  m w = (Raise e, w')
  \/ exists a w1, m w = (Ret a, w1) /\ k a w1 = (Raise e, w').
Proof.
  unfold bind. destruct (m w) as [[a | e1] w1].
  - intros H. right. now exists a, w1.
  - intros H. inversion H; subst. now left.
Qed.

(** [is_server_running] looks at the handle only. *)
Lemma running_same_handle (w w' : world) :
  server_process w' = server_process w ->
  is_server_running w' = is_server_running w.
Proof. unfold is_server_running. now intros ->. Qed.

Lemma not_running_no_handle (w : world) :
  server_process w = None -> is_server_running w = false.
Proof. unfold is_server_running. now intros ->. Qed.

End Inversion.

(** ** [send_command] *)

Section SendCommand.

Variable cmd : text.

Lemma contained_ret (A : Type) (a : A) : contained (ret a).
Proof. apply contained_total. intros w. now exists a. Qed.

Lemma send_command_contained : contained (send_command cmd).
Proof.
  unfold send_command. apply contained_bind.
  - apply contained_total. intros w. eexists. reflexivity.
  - intros running. destruct (negb running).
    + apply contained_bind; [apply contained_log |].
      intros _. apply contained_ret.
    + apply contained_except_Exception. intros e.
      apply contained_bind; [apply contained_log |].
      intros _. apply contained_ret.
Qed.

Lemma send_command_closed (w : world) :
  is_server_running w = false ->
  send_command cmd w
  = (Ret false,
     add_log (WARNING,
              "Attempted to send command, but server is not running."%string)
             w).
Proof.
  intros H. unfold send_command. rewrite bind_gets, H. reflexivity.
Qed.

Lemma send_command_running (w : world) (pr : Popen) :
  server_process w = Some pr ->
  poll_result pr = None ->
  send_command cmd w
  = match write_raises pr, flush_raises pr with
    | None, None =>
        (Ret true,
         add_log (INFO, "Sent command to server: {cmd}"%string)
           (set_server_process
              (Some (with_stdin pr (stdin_data pr ++ [cmd ++ [LF]]))) w))
    | None, Some e =>
        if isinstance_Exception e
        then (Ret false,
              add_log (ERROR, "Failed to send command '{cmd}': {e}"%string)
                (set_server_process
                   (Some (with_stdin pr (stdin_data pr ++ [cmd ++ [LF]]))) w))
        else (Raise e,
              set_server_process
                (Some (with_stdin pr (stdin_data pr ++ [cmd ++ [LF]]))) w)
    | Some e, _ =>
        if isinstance_Exception e
        then (Ret false,
              add_log (ERROR, "Failed to send command '{cmd}': {e}"%string) w)
        else (Raise e, w)
    end.
Proof.
  intros Hp Hpoll. unfold send_command.
  rewrite bind_gets. unfold is_server_running. rewrite Hp, Hpoll.
  cbn [negb].
  unfold try_except, proc_stdin_write, proc_stdin_flush, with_process,
    update_process, from_raises, bind, gets, modify, log, ret, raise,
    with_stdin.
  rewrite Hp.
  destruct (write_raises pr) as [e |] eqn:Ew; cbn.
  - now destruct (isinstance_Exception e).
  - destruct (flush_raises pr) as [e |] eqn:Ef; cbn.
    + now destruct (isinstance_Exception e).
    + reflexivity.
Qed.

End SendCommand.

(** X1.  [send_command] fails closed: with no live process it answers
    [False], writes nothing and leaves the handle (live or stale) and the
    buffer as they are; only the warning is logged. *)
Theorem X1_send_command_fails_closed :
  forall (cmd : text) (w : world),
    is_server_running w = false ->
    fst (send_command cmd w) = Ret false
    /\ server_process (snd (send_command cmd w)) = server_process w
    /\ server_output (snd (send_command cmd w)) = server_output w
    /\ logged (snd (send_command cmd w))
       = logged w
         ++ [(WARNING,
              "Attempted to send command, but server is not running."%string)].
Proof.
  intros cmd w H. rewrite (send_command_closed cmd w H). now repeat split.
Qed.

Lemma X1_witness :
  fst (send_command (lit "say hi")
                    (world_with None stale_buffer true None)) = Ret false.
Proof.
  apply (X1_send_command_fails_closed
           (lit "say hi") (world_with None stale_buffer true None)).
  reflexivity.
Defined.

(** X2.  [send_command] answers [True] exactly when a process is alive
    and neither the write nor the flush raises; the child's standard input
    has then received the command followed by one newline, after what it
    had received before. *)
Theorem X2_send_command_true_iff_written :
  forall (cmd : text) (w : world),
    (fst (send_command cmd w) = Ret true
     <-> exists pr,
        server_process w = Some pr
        /\ poll_result pr = None
        /\ write_raises pr = None
        /\ flush_raises pr = None)
    /\ (forall pr,
           server_process w = Some pr ->
           fst (send_command cmd w) = Ret true ->
           server_process (snd (send_command cmd w))
           = Some (with_stdin pr (stdin_data pr ++ [cmd ++ [LF]]))).
Proof.
  intros cmd w.
  destruct (is_server_running w) eqn:Hrun.
  - unfold is_server_running in Hrun.
    destruct (server_process w) as [pr |] eqn:Hp; [| discriminate].
    destruct (poll_result pr) eqn:Hpoll; [discriminate |].
    rewrite (send_command_running cmd w pr Hp Hpoll).
    split; [split |].
    + intros H. exists pr.
      destruct (write_raises pr) as [e |], (flush_raises pr) as [e' |];
        try (destruct (isinstance_Exception e); discriminate H);
        try (destruct (isinstance_Exception e'); discriminate H).
      now repeat split.
    + intros [pr' [E [_ [Hw Hf]]]]. inversion E; subst pr'.
      now rewrite Hw, Hf.
    + intros pr' E. inversion E; subst pr'.
      destruct (write_raises pr) as [e |], (flush_raises pr) as [e' |];
        try (destruct (isinstance_Exception e); discriminate);
        try (destruct (isinstance_Exception e'); discriminate).
      reflexivity.
  - rewrite (send_command_closed cmd w Hrun). split; [split |].
    + discriminate.
    + intros [pr [Hp [Hpoll _]]]. unfold is_server_running in Hrun.
      rewrite Hp, Hpoll in Hrun. discriminate.
    + discriminate.
Qed.

Lemma X2_witness :
  server_process
    (snd (send_command (lit "say hi")
                       (world_with (Some quiet_child) [] true None)))
  = Some (with_stdin quiet_child [lit "say hi" ++ [LF]]).
Proof.
  apply (proj2 (X2_send_command_true_iff_written
                  (lit "say hi")
                  (world_with (Some quiet_child) [] true None))
               quiet_child); reflexivity.
Defined.

(** X3.  No [Exception] leaves [send_command]: a write or a flush that
    raises one (a broken pipe) gives [False].  Whatever happens, the
    handle is neither cleared nor replaced, so [is_server_running] answers
    after the call as before it, and the buffer is not touched. *)
Theorem X3_send_command_contains_errors :
  forall (cmd : text) (w : world),
    (forall e, fst (send_command cmd w) = Raise e ->
               isinstance_Exception e = false)
    /\ (forall pr e,
           server_process w = Some pr ->
           poll_result pr = None ->
           write_raises pr = Some e
           \/ (write_raises pr = None /\ flush_raises pr = Some e) ->
           isinstance_Exception e = true ->
           fst (send_command cmd w) = Ret false)
    /\ is_server_running (snd (send_command cmd w)) = is_server_running w
    /\ server_output (snd (send_command cmd w)) = server_output w.
Proof.
  intros cmd w. split; [| split].
  - intros e. apply send_command_contained.
  - intros pr e Hp Hpoll Hfail He.
    rewrite (send_command_running cmd w pr Hp Hpoll).
    destruct Hfail as [Hw | [Hw Hf]].
    + rewrite Hw. now rewrite He.
    + rewrite Hw, Hf. now rewrite He.
  - destruct (is_server_running w) eqn:Hrun.
    + pose proof Hrun as Hrun'. unfold is_server_running in Hrun'.
      destruct (server_process w) as [pr |] eqn:Hp; [| discriminate].
      destruct (poll_result pr) eqn:Hpoll; [discriminate |].
      rewrite (send_command_running cmd w pr Hp Hpoll).
      unfold is_server_running.
      destruct (write_raises pr) as [e |], (flush_raises pr) as [e' |];
        try destruct (isinstance_Exception e);
        try destruct (isinstance_Exception e');
        cbn; rewrite ?Hp, ?Hpoll; now split.
    + rewrite (send_command_closed cmd w Hrun). now split.
Qed.

Lemma X3_witness :
  fst (send_command (lit "say hi")
                    (world_with (Some stubborn_child) [] true None))
  = Ret false.
Proof.
  apply (proj1 (proj2 (X3_send_command_contains_errors
                         (lit "say hi")
                         (world_with (Some stubborn_child) [] true None)))
               stubborn_child BrokenPipeError);
    try reflexivity.
  left. reflexivity.
Defined.

(** X4.  The route [/command] sends the submitted text with the
    whitespace at both ends removed; a text of whitespace only, and a
    form that does not validate, reach neither the child nor the log, and
    the answer is [sent: false]. *)
Theorem X4_command_route_trims :
  forall (valid : bool) (data : text) (w : world),
    (valid = false \/ strip data = [] -> command valid data w = (Ret false, w))
    /\ (forall pr,
           valid = true ->
           strip data <> [] ->
           server_process w = Some pr ->
           poll_result pr = None ->
           write_raises pr = None ->
           flush_raises pr = None ->
           fst (command valid data w) = Ret true
           /\ server_process (snd (command valid data w))
              = Some (with_stdin pr (stdin_data pr ++ [strip data ++ [LF]]))).
Proof.
  intros valid data w. split.
  - intros [H | H]; unfold command.
    + now rewrite H.
    + rewrite H. now destruct valid.
  - intros pr Hv Hne Hp Hpoll Hw Hf. unfold command. rewrite Hv.
    destruct (strip data) as [| c t] eqn:E; [contradiction |].
    rewrite (send_command_running (c :: t) w pr Hp Hpoll), Hw, Hf.
    now split.
Qed.

Lemma X4_witness :
  command true (lit "   ") (world_with (Some quiet_child) [] true None)
  = (Ret false, world_with (Some quiet_child) [] true None)
  /\ server_process
       (snd (command true (lit "  say hi ")
                     (world_with (Some quiet_child) [] true None)))
     = Some (with_stdin quiet_child [lit "say hi" ++ [LF]]).
Proof.
  split.
  - apply (proj1 (X4_command_route_trims
                    true (lit "   ")
                    (world_with (Some quiet_child) [] true None))).
    right. reflexivity.
  - apply (proj2 (X4_command_route_trims
                    true (lit "  say hi ")
                    (world_with (Some quiet_child) [] true None))
                 quiet_child); try reflexivity.
    discriminate.
Defined.

(** ** [stop_server], once more *)

Section Stop.

Lemma stop_server_not_running (w : world) (t : Z) :
  is_server_running w = false ->
  stop_server t w
  = (Ret tt, add_log (INFO, "No server process is running."%string) w).
Proof.
  intros H. unfold stop_server. rewrite bind_gets, H. reflexivity.
Qed.

Lemma stop_server_never_running (w : world) (t : Z) :
  is_server_running (snd (stop_server t w)) = false.
Proof.
  destruct (is_server_running w) eqn:H.
  - apply not_running_no_handle. now apply stop_server_clears_handle.
  - rewrite (stop_server_not_running w t H). exact H.
Qed.

(** [stop_server] touches the handle and the log, nothing else. *)
Lemma stop_server_frame (w : world) (t : Z) :
  server_output (snd (stop_server t w)) = server_output w
  /\ isdir_SERVER_DIR (snd (stop_server t w)) = isdir_SERVER_DIR w
  /\ ram_txt (snd (stop_server t w)) = ram_txt w
  /\ rmtree_raises (snd (stop_server t w)) = rmtree_raises w
  /\ popen_raises (snd (stop_server t w)) = popen_raises w.
Proof.
  apply (@keeps_stop_server
           (fun x => server_output x = server_output w
                     /\ isdir_SERVER_DIR x = isdir_SERVER_DIR w
                     /\ ram_txt x = ram_txt w
                     /\ rmtree_raises x = rmtree_raises w
                     /\ popen_raises x = popen_raises w)
           (fun _ _ H => H) (fun _ _ H => H) t w).
  now repeat split.
Qed.

End Stop.

(** X5.  No [Exception] leaves [stop_server]: a failing write, a timeout
    of the wait, a failing kill and a timeout after the kill are all
    caught. *)
Theorem X5_stop_server_contains_errors :
  forall (timeout : Z) (w : world) (e : exn),
    fst (stop_server timeout w) = Raise e -> isinstance_Exception e = false.
Proof. intros timeout w e. apply contained_stop_server. Qed.

Lemma X5_witness :
  isinstance_Exception KeyboardInterrupt = false.
Proof.
  apply (X5_stop_server_contains_errors
           30
           (world_with
              (Some (mkPopen [] None [] (Some KeyboardInterrupt) None [] None))
              [] true None)
           KeyboardInterrupt).
  reflexivity.
Defined.

(** X6.  After [stop_server], in whatever state it was called and however
    it ended, no server is running; and a second [stop_server] only logs
    that no server process is running. *)
Theorem X6_stop_server_is_final :
  forall (timeout : Z) (w : world),
    is_server_running (snd (stop_server timeout w)) = false
    /\ stop_server timeout (snd (stop_server timeout w))
       = (Ret tt,
          add_log (INFO, "No server process is running."%string)
                  (snd (stop_server timeout w))).
Proof.
  intros timeout w. split.
  - apply stop_server_never_running.
  - apply stop_server_not_running, stop_server_never_running.
Qed.

(** X7.  [stop_server] leaves the log buffer as it is: after the stop the
    readiness state is "offline", while the log text and the tunnel status
    are still those of the stopped server. *)
Theorem X7_stop_server_keeps_logs :
  forall (timeout : Z) (w : world),
    get_server_state (snd (stop_server timeout w)) = lit "offline"
    /\ get_logs (snd (stop_server timeout w)) = get_logs w
    /\ get_playit_status (snd (stop_server timeout w)) = get_playit_status w.
Proof.
  intros timeout w.
  destruct (stop_server_frame w timeout) as [Hbuf _].
  split; [| split].
  - rewrite get_server_state_cases, stop_server_never_running.
    now rewrite andb_false_r.
  - unfold get_logs. now rewrite Hbuf.
  - unfold get_playit_status. now rewrite Hbuf.
Qed.

(** ** [launch_server], once more *)

Section Launch.

(** [read_ram] either returns a value that is at least 1, logging at most
    one warning, or lets through what reading [ram.txt] raised. *)
Lemma read_ram_cases (w : world) :
  (exists n w1,
      read_ram w = (Ret n, w1)
      /\ (1 <= n)%Z
      /\ (w1 = w \/ exists r, w1 = add_log r w))
  \/ (exists e,
         ram_txt w = Some (inl e)
         /\ isinstance_ValueError e = false
         /\ read_ram w = (Raise e, w)).
Proof.
  unfold read_ram. rewrite bind_gets.
  destruct (ram_txt w) as [[e | s] |] eqn:Hf.
  - unfold try_except, bind, raise.
    destruct (isinstance_ValueError e) eqn:He.
    + left. exists 2%Z. eexists. split; [reflexivity |].
      split; [lia |]. right. eexists. reflexivity.
    + right. exists e. now repeat split.
  - left. unfold try_except, bind, gets, ret.
    destruct (int_of_str (int_max_str_digits w) (strip s)) as [n |].
    + destruct (Z.leb_spec 1 n).
      * exists n, w. split; [reflexivity |]. split; [assumption | now left].
      * exists 2%Z. eexists. split; [reflexivity |].
        split; [lia |]. right. eexists. reflexivity.
    + exists 2%Z. eexists. split; [reflexivity |].
      split; [lia |]. right. eexists. reflexivity.
  - left. exists 2%Z, w. split; [reflexivity |]. split; [lia | now left].
Qed.

(** [launch_server] from the RAM setting on, when nothing was running. *)
Lemma launch_server_from_ram (w w1 : world) (n : Z) :
  is_server_running w = false ->
  read_ram w = (Ret n, w1) ->
  launch_server w
  = match popen_raises w1 with
    | None =>
        (Ret tt,
         add_log (INFO, "Launched Minecraft server with {ram} GB RAM."%string)
           (set_server_process (Some (spawned (java_command n) (child w1)))
                               (set_server_output [] w1)))
    | Some e =>
        if isinstance_Exception e
        then (Ret tt,
              set_server_process None
                (add_log (ERROR, "Failed to launch Minecraft server: {e}"%string)
                         (set_server_output [] w1)))
        else (Raise e, set_server_output [] w1)
    end.
Proof.
  intros Hrun Hram. unfold launch_server.
  rewrite bind_gets, Hrun.
  unfold bind at 1. cbn [ret].
  erewrite bind_returns by exact Hram.
  unfold try_except, popen, bind, gets, modify, from_raises, spawned.
  cbn. destruct (popen_raises w1) as [e |]; cbn; [| reflexivity].
  now destruct (isinstance_Exception e).
Qed.

Lemma launch_server_ram_raises (w w1 : world) (e : exn) :
  is_server_running w = false ->
  read_ram w = (Raise e, w1) ->
  launch_server w = (Raise e, w1).
Proof.
  intros Hrun Hram. unfold launch_server.
  rewrite bind_gets, Hrun.
  unfold bind at 1. cbn [ret].
  now apply bind_raises.
Qed.

(** Every way in which [launch_server] returns. *)
Lemma launch_server_returns_inv (w w' : world) :
  launch_server w = (Ret tt, w') ->
  is_server_running w = false
  /\ exists n w1,
      read_ram w = (Ret n, w1)
      /\ (1 <= n)%Z
      /\ (w' = add_log (INFO, "Launched Minecraft server with {ram} GB RAM."%string)
                 (set_server_process
                    (Some (spawned (java_command n) (child w1)))
                    (set_server_output [] w1))
          \/ w' = set_server_process None
                    (add_log (ERROR, "Failed to launch Minecraft server: {e}"%string)
                             (set_server_output [] w1))).
Proof.
  intros H.
  destruct (is_server_running w) eqn:Hrun.
  - destruct (launch_server_running_raises w Hrun) as [e [w2 [E _]]].
    rewrite E in H. discriminate.
  - split; [reflexivity |].
    destruct (read_ram_cases w) as [[n [w1 [Hram [Hn _]]]] | [e [_ [_ Hram]]]].
    + exists n, w1. split; [exact Hram |]. split; [exact Hn |].
      rewrite (launch_server_from_ram w w1 n Hrun Hram) in H.
      destruct (popen_raises w1) as [e |].
      * destruct (isinstance_Exception e); [| discriminate].
        right. now inversion H.
      * left. now inversion H.
    + rewrite (launch_server_ram_raises w w e Hrun Hram) in H. discriminate.
Qed.

End Launch.

(** X8.  Whenever [launch_server] returns, the log buffer holds nothing
    of the time before: the log text is the placeholder, and the lines
    that the pump then reads are, trimmed, all that the buffer holds (the
    last 300 of them). *)
Theorem X8_launch_starts_with_empty_log :
  forall (w w' : world),
    launch_server w = (Ret tt, w') ->
    server_output w' = []
    /\ get_logs w' = lit "Server is starting or not running yet..."
    /\ forall stdout,
        stream_logs stdout (server_output w')
        = last_n MAX_LOG_LINES (map strip stdout).
Proof.
  intros w w' H.
  apply launch_server_returns_inv in H.
  destruct H as [_ [n [w1 [_ [_ Hw']]]]].
  assert (E : server_output w' = []) by (destruct Hw'; now subst).
  split; [exact E |]. split.
  - unfold get_logs. now rewrite E.
  - intros stdout. rewrite E. apply stream_logs_last_n. simpl. lia.
Qed.

Lemma X8_witness :
  get_logs (snd (launch_server (ram_world (Some (inr (lit "8"))))))
  = lit "Server is starting or not running yet...".
Proof.
  apply (X8_launch_starts_with_empty_log
           (ram_world (Some (inr (lit "8"))))
           (snd (launch_server (ram_world (Some (inr (lit "8"))))))).
  reflexivity.
Defined.

(** X9.  A spawn that fails with an [Exception] does not leave
    [launch_server] as an error: the function returns, the handle is
    empty, no server is running, the buffer is cleared and the failure
    is logged as an error. *)
Theorem X9_spawn_failure_is_reported :
  forall (w : world) (e : exn),
    is_server_running w = false ->
    (forall e', ram_txt w = Some (inl e') -> isinstance_ValueError e' = true) ->
    popen_raises w = Some e ->
    isinstance_Exception e = true ->
    fst (launch_server w) = Ret tt
    /\ server_process (snd (launch_server w)) = None
    /\ is_server_running (snd (launch_server w)) = false
    /\ server_output (snd (launch_server w)) = []
    /\ In (ERROR, "Failed to launch Minecraft server: {e}"%string)
          (logged (snd (launch_server w))).
Proof.
  intros w e Hrun Hfile Hp He.
  destruct (read_ram_cases w) as [[n [w1 [Hram [_ Hw1]]]] | [e' [Hf [Hv _]]]].
  - rewrite (launch_server_from_ram w w1 n Hrun Hram).
    assert (Hp1 : popen_raises w1 = Some e).
    { destruct Hw1 as [-> | [r ->]]; exact Hp. }
    rewrite Hp1, He. cbn. repeat split.
    apply in_or_app. right. now left.
  - rewrite (Hfile e' Hf) in Hv. discriminate.
Qed.

Lemma X9_witness :
  fst (launch_server
         (mkWorld None stale_buffer true None None (Some FileNotFoundError)
                  quiet_child 4300 []))
  = Ret tt.
Proof.
  apply (X9_spawn_failure_is_reported
           (mkWorld None stale_buffer true None None (Some FileNotFoundError)
                    quiet_child 4300 [])
           FileNotFoundError); try reflexivity.
  intros e' H. discriminate H.
Defined.

(** X10.  Only a [ValueError] of the RAM record is recovered: when
    [ram.txt] exists and reading it raises anything else (a permission
    error, say), that exception leaves [launch_server], and nothing has
    been done: the buffer is not cleared, no child is started, nothing is
    logged. *)
Theorem X10_unreadable_ram_record_raises :
  forall (w : world) (e : exn),
    is_server_running w = false ->
    ram_txt w = Some (inl e) ->
    isinstance_ValueError e = false ->
    launch_server w = (Raise e, w).
Proof.
  intros w e Hrun Hf He.
  apply launch_server_ram_raises; [exact Hrun |].
  unfold read_ram. rewrite bind_gets, Hf.
  unfold try_except, bind, raise. now rewrite He.
Qed.

Lemma X10_witness :
  launch_server (ram_world (Some (inl PermissionError)))
  = (Raise PermissionError, ram_world (Some (inl PermissionError))).
Proof.
  apply (X10_unreadable_ram_record_raises
           (ram_world (Some (inl PermissionError))) PermissionError);
    reflexivity.
Defined.

(** X11.  Whenever [launch_server] returns with a child in the handle,
    that child was started as [java -Xmx<n>G -Xms<n>G -jar server.jar
    nogui] with one and the same [n] in both flags, and [n] is at least
    1. *)
Theorem X11_heap_flags_equal_and_positive :
  forall (w w' : world) (pr : Popen),
    launch_server w = (Ret tt, w') ->
    server_process w' = Some pr ->
    exists n,
      (1 <= n)%Z
      /\ args pr
         = [lit "java";
            lit "-Xmx" ++ str_of_int n ++ lit "G";
            lit "-Xms" ++ str_of_int n ++ lit "G";
            lit "-jar"; lit "server.jar"; lit "nogui"].
Proof.
  intros w w' pr H Hp.
  apply launch_server_returns_inv in H.
  destruct H as [_ [n [w1 [_ [Hn [Hw' | Hw']]]]]]; subst w'.
  - exists n. split; [exact Hn |]. cbn in Hp. inversion Hp. reflexivity.
  - discriminate Hp.
Qed.

Lemma X11_witness :
  exists n,
    (1 <= n)%Z
    /\ args (spawned (java_command 2) quiet_child)
       = [lit "java";
          lit "-Xmx" ++ str_of_int n ++ lit "G";
          lit "-Xms" ++ str_of_int n ++ lit "G";
          lit "-jar"; lit "server.jar"; lit "nogui"].
Proof.
  apply (X11_heap_flags_equal_and_positive
           (ram_world (Some (inr (lit "0"))))
           (snd (launch_server (ram_world (Some (inr (lit "0"))))))
           (spawned (java_command 2) quiet_child));
    reflexivity.
Defined.

(** ** [delete_server], once more *)

Section DeleteAgain.

Lemma offline_when_absent_or_dead (w : world) :
  server_exists w = false \/ is_server_running w = false ->
  get_server_state w = lit "offline".
Proof.
  intros H. rewrite get_server_state_cases.
  destruct H as [-> | ->]; [reflexivity | now rewrite andb_false_r].
Qed.

(** The removal part of [delete_server], computed. *)
Lemma delete_server_not_running (w : world) :
  is_server_running w = false ->
  delete_server w
  = if isdir_SERVER_DIR w then
      match rmtree_raises w with
      | None =>
          (Ret true,
           add_log (INFO, "Deleted server directory: {SERVER_DIR}"%string)
                   (remove_tree w))
      | Some e =>
          if isinstance_OSError e
          then (Ret false,
                add_log (ERROR,
                         "Failed to delete server directory '{SERVER_DIR}': {e}"%string)
                        w)
          else (Raise e, w)
      end
    else (Ret true, w).
Proof.
  intros Hrun. unfold delete_server. rewrite bind_gets, Hrun.
  unfold bind at 1. cbn [ret].
  unfold try_except, bind, gets, from_raises, modify, log, ret, raise.
  destruct (isdir_SERVER_DIR w); [| reflexivity].
  destruct (rmtree_raises w) as [e |]; cbn; [| reflexivity].
  now destruct (isinstance_OSError e).
Qed.

Lemma delete_server_after_stop (w w1 : world) :
  is_server_running w = true ->
  stop_server 30 w = (Ret tt, w1) ->
  delete_server w = delete_server w1.
Proof.
  intros Hrun Hstop.
  assert (Hrun1 : is_server_running w1 = false).
  { pose proof (stop_server_never_running w 30) as H.
    now rewrite Hstop in H. }
  rewrite (delete_server_not_running w1 Hrun1).
  unfold delete_server. rewrite bind_gets, Hrun.
  unfold bind at 1. rewrite Hstop.
  unfold try_except, bind, gets, from_raises, modify, log, ret, raise.
  destruct (isdir_SERVER_DIR w1); [| reflexivity].
  destruct (rmtree_raises w1) as [e |]; cbn; [| reflexivity].
  now destruct (isinstance_OSError e).
Qed.

End DeleteAgain.

(** X12.  Whenever [delete_server] returns, with [True] or with [False],
    no server is running any more and the log buffer is as it was.  With
    [True] the working directory does not exist afterwards and the
    readiness state is "offline"; with [False] the directory is still
    there. *)
Theorem X12_delete_server_stops_and_removes :
  forall (w w' : world) (b : bool),
    delete_server w = (Ret b, w') ->
    is_server_running w' = false
    /\ server_output w' = server_output w
    /\ (b = true ->
        isdir_SERVER_DIR w' = false
        /\ get_server_state w' = lit "offline")
    /\ (b = false -> isdir_SERVER_DIR w' = true).
Proof.
  assert (Hstopped :
            forall w w' b,
              is_server_running w = false ->
              delete_server w = (Ret b, w') ->
              is_server_running w' = false
              /\ server_output w' = server_output w
              /\ (b = true ->
                  isdir_SERVER_DIR w' = false
                  /\ get_server_state w' = lit "offline")
              /\ (b = false -> isdir_SERVER_DIR w' = true)).
  { intros w w' b Hrun H.
    rewrite (delete_server_not_running w Hrun) in H.
    destruct (isdir_SERVER_DIR w) eqn:Hd.
    - destruct (rmtree_raises w) as [e |].
      + destruct (isinstance_OSError e); [| discriminate].
        inversion H; subst. split; [exact Hrun |]. split; [reflexivity |].
        split; [discriminate | intros _; exact Hd].
      + inversion H; subst. split; [exact Hrun |]. split; [reflexivity |].
        split; [| discriminate]. intros _. split; [reflexivity |].
        apply offline_when_absent_or_dead. now left.
    - inversion H; subst. split; [exact Hrun |]. split; [reflexivity |].
      split; [| discriminate]. intros _. split; [exact Hd |].
      apply offline_when_absent_or_dead. left. exact Hd. }
  intros w w' b H.
  destruct (is_server_running w) eqn:Hrun; [| now apply Hstopped].
  destruct (stop_server 30 w) as [[[] | e] w1] eqn:Hstop.
  - rewrite (delete_server_after_stop w w1 Hrun Hstop) in H.
    destruct (stop_server_frame w 30) as [Hbuf _]. rewrite Hstop in Hbuf.
    simpl in Hbuf. rewrite <- Hbuf.
    apply Hstopped; [| exact H].
    pose proof (stop_server_never_running w 30) as Hn.
    now rewrite Hstop in Hn.
  - unfold delete_server in H. rewrite bind_gets, Hrun in H.
    unfold bind at 1 in H. rewrite Hstop in H. discriminate.
Qed.

Lemma X12_witness :
  is_server_running
    (snd (delete_server (world_with (Some stubborn_child) stale_buffer true None)))
  = false
  /\ isdir_SERVER_DIR
       (snd (delete_server
               (world_with (Some stubborn_child) stale_buffer true None)))
     = false.
Proof.
  destruct (X12_delete_server_stops_and_removes
              (world_with (Some stubborn_child) stale_buffer true None)
              (snd (delete_server
                      (world_with (Some stubborn_child) stale_buffer true None)))
              true eq_refl) as [H1 [_ [H2 _]]].
  split; [exact H1 | exact (proj1 (H2 eq_refl))].
Defined.

(** ** [get_playit_status], once more *)

Section ScanAgain.

Lemma in_last_n (A : Type) (n : nat) (l : list A) (x : A) :
  In x (last_n n l) -> In x l.
Proof.
  unfold last_n. intros H.
  rewrite <- (firstn_skipn (List.length l - n) l).
  apply in_or_app. now right.
Qed.


(** The two things one turn of the loop can do. *)
Lemma scan_line_cases (l : text) (st : playit) :
  (ready_marker l = true
   /\ exists d,
       search re_joinmc l = Some d
       /\ scan_line l st = (Break, mkPlayit true (claim_url st) (Some d)))
  \/ (exists st',
         scan_line l st = (Continue, st')
         /\ tunnel_ready st' = tunnel_ready st
         /\ joinmc_domain st' = joinmc_domain st
         /\ (claim_url st' = claim_url st
             \/ (claim_marker l = true
                 /\ exists u,
                     search re_claim l = Some u
                     /\ claim_url st' = Some u))).
Proof.
  unfold scan_line, ready_marker, claim_marker.
  destruct (contains (lit "found minecraft java tunnel") (lower l)) eqn:Hr.
  - destruct (search re_joinmc l) as [d |] eqn:Hs.
    + left. split; [reflexivity |]. now exists d.
    + right.
      destruct (contains (lit "claim visit") (lower l)) eqn:Hc;
        destruct (negb (tunnel_ready st)); cbn;
          try (eexists; repeat split; now left).
      destruct (search re_claim l) as [u |] eqn:Hu.
      * eexists. repeat split. right. split; [reflexivity |]. now exists u.
      * eexists. repeat split. now left.
  - right.
    destruct (contains (lit "claim visit") (lower l)) eqn:Hc;
      destruct (negb (tunnel_ready st)); cbn;
        try (eexists; repeat split; now left).
    destruct (search re_claim l) as [u |] eqn:Hu.
    + eexists. repeat split. right. split; [reflexivity |]. now exists u.
    + eexists. repeat split. now left.
Qed.

(** The outcome of a scan that starts without a domain: either still
    none and not ready, or ready with the domain of a ready line. *)
Lemma scan_ready_inv (lines : list text) :
  forall st,
    tunnel_ready st = false ->
    joinmc_domain st = None ->
    (tunnel_ready (scan lines st) = false
     /\ joinmc_domain (scan lines st) = None)
    \/ (exists line d,
           In line lines
           /\ ready_marker line = true
           /\ search re_joinmc line = Some d
           /\ tunnel_ready (scan lines st) = true
           /\ joinmc_domain (scan lines st) = Some d).
Proof.
  induction lines as [| l lines IH]; intros st Ht Hj.
  - left. now split.
  - cbn [scan].
    destruct (scan_line_cases l st)
      as [[Hr [d [Hs E]]] | [st' [E [Ht' [Hj' _]]]]]; rewrite E.
    + right. exists l, d. repeat split; try assumption. now left.
    + destruct (IH st') as [H | [line [d [Hin H]]]]; try congruence.
      * now left.
      * right. exists line, d. split; [now right | exact H].
Qed.



End ScanAgain.

(** X13.  The ready flag and the join domain go together, whatever the
    buffer holds: either the tunnel is reported ready with a domain, or
    it is reported not ready without one. *)
Theorem X13_ready_iff_domain :
  forall w : world,
    (tunnel_ready (get_playit_status w) = true
     /\ exists d, joinmc_domain (get_playit_status w) = Some d)
    \/ (tunnel_ready (get_playit_status w) = false
        /\ joinmc_domain (get_playit_status w) = None).
Proof.
  intros w. unfold get_playit_status.
  destruct (scan_ready_inv (rev (last_n MAX_LOG_LINES (server_output w)))
                           (mkPlayit false None None) eq_refl eq_refl)
    as [H | [line [d [_ [_ [_ [Ht Hd]]]]]]].
  - now right.
  - left. split; [exact Ht | now exists d].
Qed.





(** X16.  When no buffered line contains "found minecraft java tunnel" or
    "claim visit" (in any case), and in particular when the buffer is
    empty, the status is not ready, without claim URL and without
    domain. *)
Theorem X16_no_marker_no_status :
  forall w : world,
    (forall line,
        In line (server_output w) ->
        contains (lit "found minecraft java tunnel") (lower line) = false
        /\ contains (lit "claim visit") (lower line) = false) ->
    get_playit_status w = mkPlayit false None None.
Proof.
  intros w H. unfold get_playit_status.
  rewrite <- (app_nil_r (rev (last_n MAX_LOG_LINES (server_output w)))).
  rewrite scan_unmarked; [reflexivity |].
  intros l Hin. apply H. apply (in_last_n _ MAX_LOG_LINES). now apply in_rev.
Qed.

Lemma X16_witness :
  get_playit_status (world_with (Some quiet_child) stale_buffer true None)
  = mkPlayit false None None.
Proof.
  apply (X16_no_marker_no_status
           (world_with (Some quiet_child) stale_buffer true None)).
  intros line [H | [H | []]]; subst line; split; reflexivity.
Defined.

(** X17.  A ready line does not clear the claim URL of a newer claim
    line: when a claim line with a URL is newer than the newest ready
    line with a domain, and the lines between and after them carry
    neither marker, the status is ready, with that domain and with that
    claim URL. *)
Theorem X17_newer_claim_is_kept_when_ready :
  forall (w : world) (older mid newer : list text) (ready claim d u : text),
    server_output w = older ++ ready :: mid ++ claim :: newer ->
    List.length (mid ++ claim :: newer) < MAX_LOG_LINES ->
    (forall l, In l (mid ++ newer) ->
               contains (lit "found minecraft java tunnel") (lower l) = false
               /\ contains (lit "claim visit") (lower l) = false) ->
    contains (lit "found minecraft java tunnel") (lower ready) = true ->
    search re_joinmc ready = Some d ->
    contains (lit "found minecraft java tunnel") (lower claim) = false ->
    contains (lit "claim visit") (lower claim) = true ->
    search re_claim claim = Some u ->
    get_playit_status w = mkPlayit true (Some u) (Some d).
Proof.
  intros w older mid newer ready claim d u Hbuf Hlen Hun Hr Hd Hcr Hc Hu.
  unfold get_playit_status. rewrite Hbuf.
  rewrite (last_n_window _ _ older (ready :: mid ++ claim :: newer))
    by (simpl; lia).
  rewrite rev_app_distr. simpl rev. rewrite rev_app_distr. simpl rev.
  rewrite <- !app_assoc. simpl app.
  rewrite scan_unmarked.
  2:{ intros l Hin. apply Hun. apply in_or_app. right. now apply in_rev. }
  cbn [scan]. unfold scan_line at 1. rewrite Hcr, Hc, Hu. cbn.
  rewrite scan_unmarked.
  2:{ intros l Hin. apply Hun. apply in_or_app. left. now apply in_rev. }
  cbn [scan]. now rewrite (scan_line_ready ready d _ Hr Hd).
Qed.

Lemma X17_witness :
  get_playit_status
    (world_with (Some quiet_child)
                [ lit "found minecraft java tunnel: foo.joinmc.link";
                  lit "failed to exchange, to claim visit: https://playit.gg/mc/AB12" ]
                true None)
  = mkPlayit true (Some (lit "https://playit.gg/mc/AB12"))
             (Some (lit "foo.joinmc.link")).
Proof.
  apply (X17_newer_claim_is_kept_when_ready
           (world_with (Some quiet_child)
                [ lit "found minecraft java tunnel: foo.joinmc.link";
                  lit "failed to exchange, to claim visit: https://playit.gg/mc/AB12" ]
                true None)
           [] [] []
           (lit "found minecraft java tunnel: foo.joinmc.link")
           (lit "failed to exchange, to claim visit: https://playit.gg/mc/AB12"));
    try reflexivity.
  - vm_compute. lia.
  - intros l [].
Defined.

(** ** The readiness state and the pump *)

Section Marker.

(** A pattern [p0 ++ [z]] with first character [a]. *)
Variables (a z : ascii) (p0 : text).
Hypothesis first_char : exists p1, p0 ++ [z] = a :: p1.

Local Abbreviation pat := (p0 ++ [z]).

Lemma startswith_snoc (c : ascii) :
  z <> c ->
  forall q x, startswith (q ++ [z]) (x ++ [c]) = startswith (q ++ [z]) x.
Proof.
  intros Hz q. induction q as [| b q IH]; intros x.
  - destruct x as [| d x]; simpl.
    + destruct (Ascii.eqb_spec z c); [contradiction | reflexivity].
    + reflexivity.
  - destruct x as [| d x]; simpl.
    + destruct (q ++ [z]) eqn:E; [now destruct q |].
      now rewrite andb_false_r.
    + now rewrite IH.
Qed.

Lemma contains_snoc (c : ascii) (s : text) :
  z <> c -> contains pat (s ++ [c]) = contains pat s.
Proof.
  intros Hz. induction s as [| d s IH].
  - pose proof (startswith_snoc c Hz p0 []) as E.
    change ([] ++ [c]) with [c] in *. cbn [contains]. rewrite E.
    now destruct (startswith pat []).
  - change ((d :: s) ++ [c]) with (d :: (s ++ [c])). cbn [contains].
    change (d :: (s ++ [c])) with ((d :: s) ++ [c]).
    now rewrite (startswith_snoc c Hz p0 (d :: s)), IH.
Qed.

Lemma contains_cons (c : ascii) (s : text) :
  a <> c -> contains pat (c :: s) = contains pat s.
Proof.
  intros Ha. destruct first_char as [p1 E]. cbn [contains]. rewrite E.
  simpl. destruct (Ascii.eqb_spec a c); [contradiction | reflexivity].
Qed.

(** Characters that are neither the first nor the last character of the
    pattern can be removed at both ends. *)
Lemma contains_trim (pre post s : text) :
  (forall c, In c pre -> a <> c) ->
  (forall c, In c post -> z <> c) ->
  contains pat (pre ++ s ++ post) = contains pat s.
Proof.
  intros Hpre Hpost.
  assert (Hend : forall t, contains pat (t ++ post) = contains pat t).
  { clear Hpre. induction post as [| c post' IH]; intros t.
    - now rewrite app_nil_r.
    - change (c :: post') with ([c] ++ post'). rewrite app_assoc.
      rewrite IH.
      + apply contains_snoc. apply Hpost. now left.
      + intros c' Hin. apply Hpost. now right. }
  rewrite app_assoc, Hend.
  clear Hend Hpost. induction pre as [| c pre' IH]; [reflexivity |].
  change ((c :: pre') ++ s) with (c :: (pre' ++ s)). rewrite contains_cons.
  - apply IH. intros c' Hin. apply Hpre. now right.
  - apply Hpre. now left.
Qed.

End Marker.

Section DoneMarker.

Lemma space_is_not_d_or_paren (c : ascii) :
  isspace c = true ->
  "d"%char <> lower_char c /\ "("%char <> lower_char c.
Proof.
  destruct c as [[] [] [] [] [] [] [] []]; vm_compute; intros H;
    try discriminate H; split; discriminate.
Qed.

(** Trimming a line neither removes nor creates the marker. *)
Lemma has_done_strip (line : text) :
  has_done (strip line) = has_done line.
Proof.
  destruct (strip_spec line) as [pre [post [Hline [Hpre [Hpost _]]]]].
  unfold has_done. rewrite Hline at 2.
  unfold lower. rewrite !map_app. symmetry.
  apply (contains_trim "d" "(" (lit "done ")
                       (ex_intro _ (lit "one (") eq_refl)).
  - intros c Hin. apply in_map_iff in Hin as [c' [<- Hin]].
    rewrite forallb_forall in Hpre.
    now apply space_is_not_d_or_paren, Hpre.
  - intros c Hin. apply in_map_iff in Hin as [c' [<- Hin]].
    rewrite forallb_forall in Hpost.
    now apply space_is_not_d_or_paren, Hpost.
Qed.

End DoneMarker.

(** X18.  With the working directory present and the process alive, the
    state is "online" as soon as the pump has appended a line that
    contains "done (" in any case, with whatever whitespace around the
    line and whatever the buffer held. *)
Theorem X18_done_line_makes_online :
  forall (w : world) (line : text),
    server_exists w = true ->
    is_server_running w = true ->
    contains (lit "done (") (lower line) = true ->
    get_server_state
      (set_server_output (append_line (server_output w) line) w)
    = lit "online".
Proof.
  intros w line Hd Hr Hdone.
  rewrite get_server_state_cases.
  change (server_exists (set_server_output
                           (append_line (server_output w) line) w))
    with (server_exists w).
  change (is_server_running (set_server_output
                               (append_line (server_output w) line) w))
    with (is_server_running w).
  rewrite Hd, Hr. cbn [andb server_output set_server_output].
  destruct (append_line_appends (server_output w) line) as [front E].
  rewrite E, existsb_app. cbn [existsb].
  rewrite has_done_strip. unfold has_done. rewrite Hdone.
  now rewrite orb_true_r.
Qed.

Lemma X18_witness :
  get_server_state
    (set_server_output
       (append_line booting_buffer ([LF] ++ lit "  [Server] DONE (3s)! " ++ [LF]))
       (world_with (Some quiet_child) booting_buffer true None))
  = lit "online".
Proof.
  apply (X18_done_line_makes_online
           (world_with (Some quiet_child) booting_buffer true None)
           ([LF] ++ lit "  [Server] DONE (3s)! " ++ [LF]));
    reflexivity.
Defined.

(** X19.  The state looks at the buffer only: with the directory present
    and the process alive, once the pump has appended 300 or more lines
    none of which contains "done (", the state is "booting" again,
    whatever the buffer held before (a server that was "online"
    included). *)
Theorem X19_online_is_lost_after_300_lines :
  forall (w : world) (stdout : list text),
    server_exists w = true ->
    is_server_running w = true ->
    List.length (server_output w) <= MAX_LOG_LINES ->
    MAX_LOG_LINES <= List.length stdout ->
    (forall line, In line stdout ->
                  contains (lit "done (") (lower line) = false) ->
    get_server_state
      (set_server_output (stream_logs stdout (server_output w)) w)
    = lit "booting".
Proof.
  intros w stdout Hd Hr Hbuf Hlen Hno.
  rewrite get_server_state_cases.
  change (server_exists (set_server_output
                           (stream_logs stdout (server_output w)) w))
    with (server_exists w).
  change (is_server_running (set_server_output
                               (stream_logs stdout (server_output w)) w))
    with (is_server_running w).
  rewrite Hd, Hr. cbn [andb server_output set_server_output].
  rewrite stream_logs_last_n by exact Hbuf.
  rewrite last_n_app_long by now rewrite length_map.
  destruct (existsb has_done (last_n MAX_LOG_LINES (map strip stdout)))
           eqn:E; [| reflexivity].
  apply existsb_exists in E as [l [Hin Hl]].
  apply in_last_n in Hin. apply in_map_iff in Hin as [l' [<- Hin]].
  rewrite has_done_strip in Hl. unfold has_done in Hl.
  rewrite (Hno l' Hin) in Hl. discriminate.
Qed.

Lemma X19_witness :
  get_server_state
    (set_server_output
       (stream_logs (numbered_lines 300) [lit "[Server] Done (3s)!"])
       (world_with (Some quiet_child) [lit "[Server] Done (3s)!"] true None))
  = lit "booting".
Proof.
  apply (X19_online_is_lost_after_300_lines
           (world_with (Some quiet_child) [lit "[Server] Done (3s)!"] true None)
           (numbered_lines 300)).
  - reflexivity.
  - reflexivity.
  - vm_compute. lia.
  - vm_compute. lia.
  - intros line Hin.
    assert (H : forallb (fun l => negb (contains (lit "done (") (lower l)))
                        (numbered_lines 300) = true) by (vm_compute; reflexivity).
    rewrite forallb_forall in H. specialize (H line Hin).
    now destruct (contains (lit "done (") (lower line)).
Defined.

(** ** The log text and its lines *)

Section LogText.

Lemma splitlines_from_line (l : text) :
  forall cur rest,
    no_linebreak l = true ->
    splitlines_from cur (l ++ rest) = splitlines_from (rev l ++ cur) rest.
Proof.
  induction l as [| c l IH]; intros cur rest H; [reflexivity |].
  simpl in H. apply andb_true_iff in H as [Hc Hl].
  apply negb_true_iff in Hc.
  change ((c :: l) ++ rest) with (c :: (l ++ rest)).
  cbn [splitlines_from]. rewrite Hc, IH by exact Hl.
  simpl. now rewrite <- app_assoc.
Qed.

Lemma splitlines_from_LF (cur rest : text) :
  splitlines_from cur (LF :: rest) = rev cur :: splitlines_from [] rest.
Proof. now destruct rest. Qed.

(** Splitting the joined lines gives the lines back, but for one empty
    line at the end. *)
Lemma splitlines_join (ls : list text) :
  (forall l, In l ls -> no_linebreak l = true) ->
  splitlines (join [LF] ls)
  = match last ls [] with
    | [] => removelast ls
    | _ :: _ => ls
    end.
Proof.
  unfold splitlines. induction ls as [| l ls IH]; intros H; [reflexivity |].
  destruct ls as [| l' ls].
  - cbn [join last removelast].
    rewrite <- (app_nil_r l) at 1.
    rewrite splitlines_from_line by (apply H; now left).
    rewrite app_nil_r. destruct l as [| c l]; [reflexivity |].
    cbn [splitlines_from].
    destruct (rev (c :: l)) eqn:E.
    + apply (f_equal (@List.length ascii)) in E.
      rewrite length_rev in E. discriminate E.
    + now rewrite <- E, rev_involutive.
  - change (join [LF] (l :: l' :: ls)) with (l ++ LF :: join [LF] (l' :: ls)).
    rewrite splitlines_from_line by (apply H; now left).
    rewrite app_nil_r, splitlines_from_LF, rev_involutive.
    rewrite IH by (intros x Hx; apply H; now right).
    change (last (l :: l' :: ls) []) with (last (l' :: ls) []).
    change (removelast (l :: l' :: ls)) with (l :: removelast (l' :: ls)).
    now destruct (last (l' :: ls) []).
Qed.

End LogText.

(** X20.  The lines that [get_server_state] scans, [get_logs()] split
    into lines, are the buffered lines when the buffer is not empty and no
    buffered line contains a line boundary, with one exception: an empty
    line at the end of the buffer is lost. *)
Theorem X20_log_text_round_trip :
  forall w : world,
    server_output w <> [] ->
    (forall line, In line (server_output w) -> no_linebreak line = true) ->
    splitlines (get_logs w)
    = match last (server_output w) [] with
      | [] => removelast (server_output w)
      | _ :: _ => server_output w
      end.
Proof.
  intros w Hne Hclean. unfold get_logs.
  destruct (server_output w) as [| l ls] eqn:E; [contradiction |].
  now apply splitlines_join.
Qed.

Lemma X20_witness :
  splitlines (get_logs (world_with None (stale_buffer ++ [lit ""]) true None))
  = stale_buffer
  /\ splitlines (get_logs (world_with None stale_buffer true None))
     = stale_buffer.
Proof.
  split.
  - apply (X20_log_text_round_trip
             (world_with None (stale_buffer ++ [lit ""]) true None)).
    + discriminate.
    + intros line [H | [H | [H | []]]]; subst line; reflexivity.
  - apply (X20_log_text_round_trip
             (world_with None stale_buffer true None)).
    + discriminate.
    + intros line [H | [H | []]]; subst line; reflexivity.
Defined.

(** ** Writing an integer and reading it back *)

Section IntRoundTrip.

Local Abbreviation shift := (fun (a : Z) (c : ascii) => (10 * a + digit_val c)%Z).

Local Abbreviation digits d := (lit (NilEmpty.string_of_uint d)).

Lemma int_digits_all (s : text) :
  forall acc n,
    forallb isdigit s = true ->
    int_digits acc n false s
    = Some (fold_left shift s acc, n + List.length s).
Proof.
  induction s as [| c s IH]; intros acc n H.
  - simpl. f_equal. f_equal. lia.
  - simpl in H. apply andb_true_iff in H as [Hc Hs].
    cbn [int_digits fold_left List.length]. rewrite Hc, IH by exact Hs.
    f_equal. f_equal. lia.
Qed.

Lemma digits_are_digits (d : Decimal.uint) :
  forallb isdigit (digits d) = true.
Proof. induction d; simpl; try rewrite IHd; reflexivity. Qed.

Lemma digits_value_pos (d : Decimal.uint) :
  forall p, fold_left shift (digits d) (Z.pos p) = Z.pos (Pos.of_uint_acc d p).
Proof.
  induction d; intros p; cbn [NilEmpty.string_of_uint lit list_ascii_of_string
                                fold_left Pos.of_uint_acc];
    [reflexivity | ..];
    rewrite <- IHd; f_equal; vm_compute digit_val; lia.
Qed.

Lemma digits_value (d : Decimal.uint) :
  fold_left shift (digits d) 0%Z = Z.of_N (Pos.of_uint d).
Proof.
  induction d; cbn [NilEmpty.string_of_uint lit list_ascii_of_string
                      fold_left Pos.of_uint];
    [reflexivity | exact IHd | ..];
    apply (digits_value_pos d).
Qed.

Lemma digit_is_no_space (c : ascii) : isdigit c = true -> isspace c = false.
Proof.
  destruct c as [[] [] [] [] [] [] [] []]; vm_compute; intros H;
    try discriminate H; reflexivity.
Qed.

Lemma digit_is_no_sign (c : ascii) :
  isdigit c = true -> Ascii.eqb c "-" = false /\ Ascii.eqb c "+" = false.
Proof.
  destruct c as [[] [] [] [] [] [] [] []]; vm_compute; intros H;
    try discriminate H; now split.
Qed.

Lemma strip_digits (s : text) : forallb isdigit s = true -> strip s = s.
Proof.
  intros H.
  assert (Hl : forall t, forallb isdigit t = true -> lstrip t = t).
  { intros [| c t] Ht; [reflexivity |].
    simpl in Ht. apply andb_true_iff in Ht as [Hc _].
    simpl. now rewrite (digit_is_no_space c Hc). }
  unfold strip, rstrip. rewrite (Hl s H), Hl.
  - apply rev_involutive.
  - rewrite forallb_forall in *. intros c Hc. apply H. now apply in_rev.
Qed.

(** [int(str(n))] is [n], when the digits are within the limit. *)
Lemma int_of_str_of_int (lim : nat) (n : Z) :
  (0 <= n)%Z ->
  lim = 0 \/ List.length (str_of_int n) <= lim ->
  int_of_str lim (strip (str_of_int n)) = Some n.
Proof.
  intros Hn Hlim.
  assert (Hd : exists d,
             str_of_int n = digits d
             /\ d <> Decimal.Nil
             /\ Z.of_N (Pos.of_uint d) = n).
  { destruct n as [| p | p]; [| | lia].
    - exists (Decimal.D0 Decimal.Nil). now repeat split.
    - exists (Pos.to_uint p). split; [| split].
      + unfold str_of_int. simpl.
        pose proof (Unsigned.to_uint_nonnil p) as Hnil.
        now destruct (Pos.to_uint p).
      + apply Unsigned.to_uint_nonnil.
      + now rewrite Unsigned.of_to. }
  destruct Hd as [d [Hs [Hnil Hv]]].
  rewrite Hs in *. clear Hs.
  pose proof (digits_are_digits d) as Hall.
  pose proof (digits_value d) as Hval.
  rewrite (strip_digits _ Hall). unfold int_of_str.
  rewrite (strip_digits _ Hall).
  destruct (digits d) as [| c s] eqn:E.
  - destruct d; try contradiction; discriminate E.
  - simpl in Hall. apply andb_true_iff in Hall as [Hc Hs].
    destruct (digit_is_no_sign c Hc) as [-> ->].
    unfold int_unsigned. rewrite Hc, (int_digits_all s _ _ Hs).
    cbn [fold_left] in Hval.
    replace (10 * 0 + digit_val c)%Z with (digit_val c) in Hval by lia.
    rewrite Hval, Hv.
    cbn [List.length] in Hlim.
    destruct Hlim as [-> | Hlim]; [reflexivity |].
    replace (Nat.leb (1 + List.length s) lim) with true
      by (symmetry; apply Nat.leb_le; lia).
    now rewrite orb_true_r.
Qed.

End IntRoundTrip.

(** ** [create_server] *)

Section CreateServer.

Variables (net : internet) (version : text) (ram : Z).

Lemma last_any_default (A : Type) (l : list A) (d d' : A) :
  l <> [] -> last l d = last l d'.
Proof.
  induction l as [| x l IH]; [contradiction |].
  intros _. destruct l as [| y l]; [reflexivity |].
  change (last (x :: y :: l) d) with (last (y :: l) d).
  change (last (x :: y :: l) d') with (last (y :: l) d').
  apply IH. discriminate.
Qed.

Lemma create_server_succeeds (builds : list Z) (s : site) :
  all_steps_succeed net builds ->
  create_server net version ram s
  = (Done true,
     mkSite (created_world ram (sv s))
            (mkDisk true (Some (lit "eula=true" ++ [LF])) true true)
            (requested s
               ++ [api_url version; jar_url version (last builds 0%Z);
                   PLUGIN_URL])).
Proof.
  intros [H1 [H2 [H3 [H4 [H5 [H6 [H7 [H8 [H9 H10]]]]]]]]].
  destruct builds as [| b bs]; [contradiction |].
  unfold create_server, fetch_builds, download, prov_try, prov_bind,
    http_get, step, on_world, on_disk, prov_log, prov_ret.
  rewrite H1, H2, H4, H5, H6, H7, H8, H9, H10.
  cbn -[api_url jar_url PLUGIN_URL last lit app str_of_int].
  rewrite (last_any_default Z (b :: bs) b 0%Z) by discriminate.
  rewrite <- !app_assoc. reflexivity.
Qed.

(** [True] comes out only when every step succeeded. *)
Lemma create_server_true_inv (s s' : site) :
  create_server net version ram s = (Done true, s') ->
  exists builds, all_steps_succeed net builds.
Proof.
  unfold create_server, fetch_builds, download, prov_try, prov_bind,
    http_get, step, on_world, on_disk, prov_log, prov_ret, all_steps_succeed.
  destruct (makedirs_server net) as [[] |]; cbn; try discriminate.
  destruct (api_get net) as [[] | [[| b bs] |]]; cbn; try discriminate.
  destruct (jar_get net) as [[] |]; cbn; try discriminate.
  destruct (jar_save net) as [[] |]; cbn; try discriminate.
  destruct (eula_write net) as [[] |]; cbn; try discriminate.
  destruct (makedirs_plugins net) as [[] |]; cbn; try discriminate.
  destruct (plugin_get net) as [[] |]; cbn; try discriminate.
  destruct (plugin_save net) as [[] |]; cbn; try discriminate.
  destruct (ram_write net) as [[] |]; cbn; try discriminate.
  intros _. exists (b :: bs). repeat split. discriminate.
Qed.

(** Only what is neither a [RequestException] nor an [OSError] leaves
    [create_server]. *)
Lemma create_server_failed_inv (s s' : site) (f : failure) :
  create_server net version ram s = (Failed f, s') -> f = OtherError.
Proof.
  unfold create_server, fetch_builds, download, prov_try, prov_bind,
    http_get, step, on_world, on_disk, prov_log, prov_ret.
  destruct (makedirs_server net) as [[] |]; cbn;
    try discriminate; try (intros H; now inversion H).
  destruct (api_get net) as [[] | [[| b bs] |]]; cbn;
    try discriminate; try (intros H; now inversion H).
  destruct (jar_get net) as [[] |]; cbn;
    try discriminate; try (intros H; now inversion H).
  destruct (jar_save net) as [[] |]; cbn;
    try discriminate; try (intros H; now inversion H).
  destruct (eula_write net) as [[] |]; cbn;
    try discriminate; try (intros H; now inversion H).
  destruct (makedirs_plugins net) as [[] |]; cbn;
    try discriminate; try (intros H; now inversion H).
  destruct (plugin_get net) as [[] |]; cbn;
    try discriminate; try (intros H; now inversion H).
  destruct (plugin_save net) as [[] |]; cbn;
    try discriminate; try (intros H; now inversion H).
  destruct (ram_write net) as [[] |]; cbn;
    try discriminate; try (intros H; now inversion H).
Qed.

(** Once the directory is made it stays, and [create_server] touches
    neither the handle nor the buffer. *)
Lemma create_server_frame (s : site) :
  server_process (sv (snd (create_server net version ram s)))
  = server_process (sv s)
  /\ server_output (sv (snd (create_server net version ram s)))
     = server_output (sv s)
  /\ (makedirs_server net = None ->
      isdir_SERVER_DIR (sv (snd (create_server net version ram s))) = true).
Proof.
  unfold create_server, fetch_builds, download, prov_try, prov_bind,
    http_get, step, on_world, on_disk, prov_log, prov_ret.
  destruct (makedirs_server net) as [[] |]; cbn;
    try (repeat split; discriminate).
  destruct (api_get net) as [[] | [[| b bs] |]]; cbn;
    try (repeat split; discriminate); try now repeat split.
  destruct (jar_get net) as [[] |]; cbn; try now repeat split.
  destruct (jar_save net) as [[] |]; cbn; try now repeat split.
  destruct (eula_write net) as [[] |]; cbn; try now repeat split.
  destruct (makedirs_plugins net) as [[] |]; cbn; try now repeat split.
  destruct (plugin_get net) as [[] |]; cbn; try now repeat split.
  destruct (plugin_save net) as [[] |]; cbn; try now repeat split.
  destruct (ram_write net) as [[] |]; cbn; now repeat split.
Qed.

End CreateServer.

(** X21.  [create_server] answers [True] exactly when every step
    succeeds: both directories made, a non-empty build list fetched, both
    downloads fetched and saved, [eula.txt] and [ram.txt] written.  Then
    the directory exists, [ram.txt] holds [str(ram)], [eula.txt] holds
    "eula=true" and a newline, and three URLs were requested: the build
    list of the version, the jar of the last build of that list, and the
    plugin. *)
Theorem X21_create_server_true_iff_all_steps :
  forall (net : internet) (version : text) (ram : Z) (s : site),
    (fst (create_server net version ram s) = Done true
     <-> exists builds, all_steps_succeed net builds)
    /\ (forall builds,
           all_steps_succeed net builds ->
           isdir_SERVER_DIR (sv (snd (create_server net version ram s))) = true
           /\ ram_txt (sv (snd (create_server net version ram s)))
              = Some (inr (str_of_int ram))
           /\ dk (snd (create_server net version ram s))
              = mkDisk true (Some (lit "eula=true" ++ [LF])) true true
           /\ requested (snd (create_server net version ram s))
              = requested s
                ++ [api_url version;
                    jar_url version (last builds 0%Z);
                    PLUGIN_URL]).
Proof.
  intros net version ram s. split; [split |].
  - intros H.
    destruct (create_server net version ram s) as [r s'] eqn:E.
    simpl in H. subst r. now apply (create_server_true_inv _ _ _ _ _ E).
  - intros [builds H]. now rewrite (create_server_succeeds _ _ _ _ s H).
  - intros builds H. rewrite (create_server_succeeds _ _ _ _ s H).
    now repeat split.
Qed.

Lemma X21_witness :
  ram_txt (sv (snd (create_server good_net (lit "1.21.5") 8 fresh_site)))
  = Some (inr (lit "8"))
  /\ requested (snd (create_server good_net (lit "1.21.5") 8 fresh_site))
     = [lit "https://api.papermc.io/v2/projects/paper/versions/1.21.5";
        lit "https://api.papermc.io/v2/projects/paper/versions/1.21.5/builds/201/downloads/paper-1.21.5-201.jar";
        PLUGIN_URL].
Proof.
  destruct (proj2 (X21_create_server_true_iff_all_steps
                     good_net (lit "1.21.5") 8 fresh_site)
                  [196; 197; 201]%Z) as [_ [H1 [_ H2]]].
  - repeat split. discriminate.
  - split; [exact H1 | exact H2].
Defined.

(** X22.  [create_server] lets neither a [RequestException] nor any
    other [OSError] out: a step that fails with one of them gives
    [False].  It never touches the process handle or the log buffer. *)
Theorem X22_create_server_contains_errors :
  forall (net : internet) (version : text) (ram : Z) (s : site),
    (forall f, fst (create_server net version ram s) = Failed f ->
               f = OtherError)
    /\ server_process (sv (snd (create_server net version ram s)))
       = server_process (sv s)
    /\ server_output (sv (snd (create_server net version ram s)))
       = server_output (sv s).
Proof.
  intros net version ram s. split; [| split].
  - intros f H.
    destruct (create_server net version ram s) as [r s'] eqn:E.
    simpl in H. subst r. now apply (create_server_failed_inv _ _ _ _ _ _ E).
  - apply create_server_frame.
  - apply create_server_frame.
Qed.

Lemma X22_witness : OtherError = OtherError.
Proof.
  apply (proj1 (X22_create_server_contains_errors
                  (mkInternet None (inl OtherError) None None None None None
                              None None)
                  (lit "1.21.5") 8 fresh_site)).
  reflexivity.
Defined.

(** X23.  A creation that fails after its first step leaves the working
    directory behind: whatever the later steps do and whatever
    [create_server] answers, [server_exists()] is true afterwards, and
    the route [/] then shows the control panel, not the creation form. *)
Theorem X23_failed_creation_leaves_directory :
  forall (net net' : internet) (version : text) (ram available : Z)
         (submitted : option (text * Z)) (s : site),
    makedirs_server net = None ->
    server_exists (sv (snd (create_server net version ram s))) = true
    /\ index net' available submitted (snd (create_server net version ram s))
       = (inl RenderControl, snd (create_server net version ram s)).
Proof.
  intros net net' version ram available submitted s H.
  assert (E : server_exists (sv (snd (create_server net version ram s)))
              = true).
  { unfold server_exists. now apply create_server_frame. }
  split; [exact E |]. unfold index. now rewrite E.
Qed.

Lemma X23_witness :
  fst (create_server offline_net (lit "1.21.5") 8 fresh_site) = Done false
  /\ server_exists
       (sv (snd (create_server offline_net (lit "1.21.5") 8 fresh_site)))
     = true.
Proof.
  split; [reflexivity |].
  apply (X23_failed_creation_leaves_directory
           offline_net offline_net (lit "1.21.5") 8 0 None fresh_site).
  reflexivity.
Defined.

(** ** The route [/]: creation, then launch *)

Section Index.

Lemma created_world_launches (w : world) (ram : Z) :
  is_server_running w = false ->
  popen_raises w = None ->
  (1 <= ram)%Z ->
  int_max_str_digits w = 0
  \/ List.length (str_of_int ram) <= int_max_str_digits w ->
  launch_server (created_world ram w)
  = (Ret tt,
     add_log (INFO, "Launched Minecraft server with {ram} GB RAM."%string)
       (set_server_process
          (Some (spawned (java_command ram) (child w)))
          (set_server_output [] (created_world ram w)))).
Proof.
  intros Hrun Hp Hram Hlim.
  assert (Hread : read_ram (created_world ram w)
                  = (Ret ram, created_world ram w)).
  { apply (read_ram_valid (created_world ram w) (str_of_int ram) ram).
    - reflexivity.
    - apply int_of_str_of_int; [lia | exact Hlim].
    - exact Hram. }
  rewrite (launch_server_from_ram (created_world ram w)
                                  (created_world ram w) ram Hrun Hread).
  change (popen_raises (created_world ram w)) with (popen_raises w).
  now rewrite Hp.
Qed.

Lemma free_ram_fits (available requested_ram : Z) :
  (free_ram available <? requested_ram)%Z = false ->
  (requested_ram * 1024 ^ 3 <= available)%Z.
Proof.
  unfold free_ram. intros H. apply Z.ltb_ge in H.
  pose proof (Z.mul_div_le available (1024 ^ 3) eq_refl) as Hd.
  nia.
Qed.

End Index.

(** X24.  From the form to the Java command line: when the directory
    does not exist, no process runs, the requested RAM is at least 1 and
    at most the free RAM, every step of the creation succeeds and the
    spawn succeeds, the route [/] creates the server, launches it and
    redirects; the child runs with [-Xmx<ram>G -Xms<ram>G] for the very
    number submitted (written to [ram.txt] by [create_server], read back
    by [launch_server]), and the log buffer is empty. *)
Theorem X24_index_creates_and_launches_with_requested_ram :
  forall (net : internet) (available : Z) (version : text)
         (requested_ram : Z) (builds : list Z) (s : site),
    server_exists (sv s) = false ->
    is_server_running (sv s) = false ->
    (1 <= requested_ram <= free_ram available)%Z ->
    all_steps_succeed net builds ->
    popen_raises (sv s) = None ->
    int_max_str_digits (sv s) = 0
    \/ List.length (str_of_int requested_ram) <= int_max_str_digits (sv s) ->
    fst (index net available (Some (version, requested_ram)) s)
    = inl (RedirectIndex (Some "success"%string))
    /\ option_map args
         (server_process
            (sv (snd (index net available (Some (version, requested_ram)) s))))
       = Some [lit "java";
               lit "-Xmx" ++ str_of_int requested_ram ++ lit "G";
               lit "-Xms" ++ str_of_int requested_ram ++ lit "G";
               lit "-jar"; lit "server.jar"; lit "nogui"]
    /\ server_output
         (sv (snd (index net available (Some (version, requested_ram)) s)))
       = [].
Proof.
  intros net available version ram builds s Hd Hrun [H1 Hfree] Hnet Hp Hlim.
  unfold index. rewrite Hd. cbn [negb].
  replace (free_ram available <? ram)%Z with false
    by (symmetry; apply Z.ltb_ge; exact Hfree).
  rewrite (create_server_succeeds net version ram builds s Hnet).
  cbn [sv dk requested].
  rewrite (created_world_launches (sv s) ram Hrun Hp H1 Hlim).
  now repeat split.
Qed.

Lemma X24_witness :
  option_map args
    (server_process
       (sv (snd (index good_net (64 * 1024 ^ 3) (Some (lit "1.21.5", 8%Z))
                       fresh_site))))
  = Some [lit "java"; lit "-Xmx8G"; lit "-Xms8G";
          lit "-jar"; lit "server.jar"; lit "nogui"].
Proof.
  apply (X24_index_creates_and_launches_with_requested_ram
           good_net (64 * 1024 ^ 3) (lit "1.21.5") 8 [196; 197; 201]%Z
           fresh_site).
  - reflexivity.
  - reflexivity.
  - vm_compute. split; discriminate.
  - repeat split. discriminate.
  - reflexivity.
  - right. vm_compute. lia.
Defined.

(** X25.  The RAM guard of the route [/]: a request for more gigabytes
    than the available memory holds in whole GiB creates nothing (no
    directory, no request, no log) and shows the form again; so whenever
    the route changes anything, the requested RAM in bytes
    ([requested_ram * 1024^3]) is within the available memory. *)
Theorem X25_index_ram_guard :
  forall (net : internet) (available : Z) (version : text)
         (requested_ram : Z) (s : site),
    ((free_ram available < requested_ram)%Z ->
     server_exists (sv s) = false ->
     index net available (Some (version, requested_ram)) s
     = (inl (RenderCreate (Some "danger"%string)), s))
    /\ (snd (index net available (Some (version, requested_ram)) s) <> s ->
        (requested_ram * 1024 ^ 3 <= available)%Z).
Proof.
  intros net available version ram s. split.
  - intros Hlt Hd. unfold index. rewrite Hd. cbn [negb].
    replace (free_ram available <? ram)%Z with true
      by (symmetry; apply Z.ltb_lt; exact Hlt).
    reflexivity.
  - unfold index.
    destruct (negb (server_exists (sv s))); [| intros H; now elim H].
    destruct (free_ram available <? ram)%Z eqn:E; [intros H; now elim H |].
    intros _. now apply free_ram_fits.
Qed.

Lemma X25_witness :
  index good_net (7 * 1024 ^ 3 + 5) (Some (lit "1.21.5", 8%Z)) fresh_site
  = (inl (RenderCreate (Some "danger"%string)), fresh_site)
  /\ (8 * 1024 ^ 3 <= 64 * 1024 ^ 3)%Z.
Proof.
  split.
  - apply (proj1 (X25_index_ram_guard
                    good_net (7 * 1024 ^ 3 + 5) (lit "1.21.5") 8 fresh_site)).
    + vm_compute. reflexivity.
    + reflexivity.
  - apply (proj2 (X25_index_ram_guard
                    good_net (64 * 1024 ^ 3) (lit "1.21.5") 8 fresh_site)).
    vm_compute. discriminate.
Defined.

(** ** [secure_server_path] *)

Section SecurePath.

Lemma replace_char_removes (old new : ascii) (s : text) :
  old <> new -> ~ In old (replace_char old new s).
Proof.
  intros Hne Hin. unfold replace_char in Hin.
  apply in_map_iff in Hin as [c [Hc _]].
  destruct (Ascii.eqb_spec c old); congruence.
Qed.

Lemma lstrip_char_suffix (x : ascii) (s : text) :
  exists pre, s = pre ++ lstrip_char x s.
Proof.
  induction s as [| c s [pre IH]]; [now exists [] |].
  simpl. destruct (Ascii.eqb c x).
  - exists (c :: pre). simpl. now f_equal.
  - now exists [].
Qed.

Lemma lstrip_char_head (x : ascii) (s t : text) :
  lstrip_char x s <> x :: t.
Proof.
  induction s as [| c s IH]; [discriminate |].
  simpl. destruct (Ascii.eqb_spec c x) as [E | E]; [exact IH |].
  intros H. inversion H. contradiction.
Qed.

Lemma text_eqb_eq (a : text) : forall b, text_eqb a b = true -> a = b.
Proof.
  induction a as [| x a IH]; intros [| y b] H; try discriminate H.
  - reflexivity.
  - simpl in H. apply andb_true_iff in H as [Hx Hab].
    apply Ascii.eqb_eq in Hx. f_equal; [exact Hx | now apply IH].
Qed.

Lemma startswith_prefix (a : text) :
  forall s, startswith a s = true -> exists b, s = a ++ b.
Proof.
  induction a as [| x a IH]; intros s H; [now exists s |].
  destruct s as [| y s]; [discriminate H |].
  simpl in H. apply andb_true_iff in H as [Hx Hs].
  apply Ascii.eqb_eq in Hx. destruct (IH s Hs) as [b Hb].
  exists b. simpl. now f_equal.
Qed.

Lemma path_join_relative (a b : text) :
  (forall t, b <> "/"%char :: t) ->
  exists sep, (sep = [] \/ sep = ["/"%char]) /\ path_join a b = a ++ sep ++ b.
Proof.
  intros Hb. unfold path_join.
  assert (Hrest : exists sep,
             (sep = [] \/ sep = ["/"%char])
             /\ match a with
                | [] => a ++ b
                | _ :: _ =>
                    if endswith_char "/" a then a ++ b else a ++ "/"%char :: b
                end = a ++ sep ++ b).
  { destruct a as [| c a].
    - exists []. split; [now left | reflexivity].
    - destruct (endswith_char "/" (c :: a)).
      + exists []. split; [now left | reflexivity].
      + exists ["/"%char]. split; [now right | reflexivity]. }
  destruct b as [| c b]; [exact Hrest |].
  destruct (Ascii.eqb_spec c "/") as [E | _]; [| exact Hrest].
  subst c. now elim (Hb b).
Qed.

End SecurePath.

(** X26.  What [secure_server_path] resolves always begins with the
    server directory: the relative path, after its backslashes are turned
    into slashes and its leading slashes removed, has no backslash and no
    leading slash, so [os.path.join] cannot drop [SERVER_DIR] for it; and
    a path that is returned is the resolved joined path, equal to the
    resolved server directory or below it. *)
Theorem X26_secure_server_path_joins_below :
  forall (realpath : text -> text) (SERVER_DIR rel_path : text),
    ~ In "\"%char (lstrip_char "/" (replace_char "\" "/" rel_path))
    /\ (forall t,
           lstrip_char "/" (replace_char "\" "/" rel_path) <> "/"%char :: t)
    /\ (exists sep,
           (sep = [] \/ sep = ["/"%char])
           /\ path_join SERVER_DIR
                        (lstrip_char "/" (replace_char "\" "/" rel_path))
              = SERVER_DIR ++ sep
                ++ lstrip_char "/" (replace_char "\" "/" rel_path))
    /\ (forall p,
           secure_server_path realpath SERVER_DIR rel_path = Some p ->
           p = realpath
                 (path_join SERVER_DIR
                            (lstrip_char "/" (replace_char "\" "/" rel_path)))
           /\ (p = realpath SERVER_DIR
               \/ exists below,
                   p = realpath SERVER_DIR ++ "/"%char :: below)).
Proof.
  intros realpath dir rel. split; [| split; [| split]].
  - intros Hin.
    destruct (lstrip_char_suffix "/" (replace_char "\" "/" rel)) as [pre E].
    apply (replace_char_removes "\" "/" rel); [discriminate |].
    rewrite E. apply in_or_app. now right.
  - intros t. apply lstrip_char_head.
  - apply path_join_relative. intros t. apply lstrip_char_head.
  - intros p. unfold secure_server_path.
    destruct (text_eqb _ _) eqn:Heq; cbn [orb negb].
    + intros H. inversion H; subst p. split; [reflexivity |].
      left. now apply text_eqb_eq.
    + destruct (startswith _ _) eqn:Hsw; cbn [negb]; [| discriminate].
      intros H. inversion H; subst p. split; [reflexivity |].
      right. apply startswith_prefix in Hsw as [b Hb].
      exists b. rewrite Hb at 1. now rewrite <- app_assoc.
Qed.

Lemma X26_witness :
  secure_server_path (fun p => p) (lit "minecraft_server") (lit "\/etc/passwd")
  = Some (lit "minecraft_server/etc/passwd")
  /\ (lit "minecraft_server/etc/passwd" = lit "minecraft_server"
      \/ exists below,
          lit "minecraft_server/etc/passwd"
          = lit "minecraft_server" ++ "/"%char :: below).
Proof.
  split; [reflexivity |].
  apply (proj2 (proj2 (proj2 (X26_secure_server_path_joins_below
                                (fun p => p) (lit "minecraft_server")
                                (lit "\/etc/passwd"))))
               (lit "minecraft_server/etc/passwd")).
  reflexivity.
Defined.
